(** * scripts/xiangshan.py: the idle-core window finder and the subprocess runner

    A shallow embedding of [get_free_cores] and of [XiangShan.__exec_cmd].
    What the script reads from the operating system through [psutil],
    [random] and [subprocess] is passed in as data: one [Host] record for
    each turn of the polling loop, one [wait_result] for each subprocess.
    Python integers are [Z]; Python floats (the percentages reported by
    [psutil.cpu_percent], the draw of [random.random]) are IEEE 754
    binary64 numbers, added and multiplied with the rounding that the
    Standard Library specifies in [SpecFloat]. *)

From Stdlib Require Import ZArith String Ascii List Bool Lia.
From Stdlib Require Import DecimalString DecimalPos SpecFloat.
From stdpp Require Import base gmap sets list strings.

Open Scope Z_scope.

(** ** Exceptions and results *)

Inductive exn :=
| NoSuchProcess
| AccessDenied
| ZombieProcess
| ZeroDivisionError
| TypeError
| ValueError.

Inductive result (A : Type) :=
| Ok (a : A)
| Raise (e : exn).
Arguments Ok {A} a.
Arguments Raise {A} e.

Definition bind {A B} (r : result A) (f : A -> result B) : result B :=
  match r with
  | Ok a => f a
  | Raise e => Raise e
  end.

Notation "x <- r ;; k" := (bind r (fun x => k))
  (at level 100, r at next level, right associativity).

(** [a // b] and [a % b] on Python integers: floor division and the
    remainder with the sign of the divisor, as [Z.div] and [Z.modulo];
    a zero divisor raises. *)
Definition floordiv (a b : Z) : result Z :=
  if b =? 0 then Raise ZeroDivisionError else Ok (a / b).

Definition pymod (a b : Z) : result Z :=
  if b =? 0 then Raise ZeroDivisionError else Ok (a mod b).

(** [range(a, b)] *)
Definition range (a b : Z) : list Z := seqZ a (b - a).

(** [l[a:b]] for any integers [a] and [b]: a negative bound counts from
    the end, and bounds are clipped to the list. *)
Definition clip (len i : Z) : Z :=
  if i <? 0 then Z.max 0 (i + len) else Z.min i len.

Definition slice {A} (l : list A) (a b : Z) : list A :=
  let len := Z.of_nat (length l) in
  let lo := clip len a in
  let hi := clip len b in
  take (Z.to_nat (hi - lo)) (drop (Z.to_nat lo) l).

(** ** The regular expression of [numa_re]

    Only the constructs the pattern uses: literal text, the greedy
    repetitions [c*] and [c+] of a one-character class, capturing groups
    and concatenation.  The matcher backtracks the way [re] does: a
    repetition first takes as many characters as it can and gives them
    back one at a time while the rest of the pattern fails. *)

Inductive cset :=
| Any                      (* .  : every character but a newline *)
| Ch (c : ascii)           (* a literal character *)
| Rng (lo hi : ascii).     (* [lo-hi] *)

Inductive regex :=
| Lit (s : string)
| Star (c : cset)
| Plus (c : cset)
| Group (r : regex)
| Cat (r1 r2 : regex).

Definition newline : ascii := ascii_of_nat 10.

Definition mem (c : cset) (a : ascii) : bool :=
  match c with
  | Any => negb (Ascii.eqb a newline)
  | Ch b => Ascii.eqb a b
  | Rng lo hi => (nat_of_ascii lo <=? nat_of_ascii a)%nat
                 && (nat_of_ascii a <=? nat_of_ascii hi)%nat
  end.

Fixpoint strip (t s : string) : option string :=
  match t, s with
  | EmptyString, _ => Some s
  | String a t', String b s' => if Ascii.eqb a b then strip t' s' else None
  | String _ _, EmptyString => None
  end.

(** The text between the start [s] of a group and what is left, [s'],
    when the group closes. *)
Definition taken (s s' : string) : string :=
  String.substring 0 (String.length s - String.length s') s.

Section Matcher.
Context {R : Type}.

(** [c*] followed by [k], longest first. *)
Fixpoint star (c : cset) (k : string -> option R) (s : string) : option R :=
  match s with
  | String a s' =>
      if mem c a then
        match star c k s' with
        | Some r => Some r
        | None => k s
        end
      else k s
  | EmptyString => k s
  end.

Definition plus (c : cset) (k : string -> option R) (s : string) : option R :=
  match s with
  | String a s' => if mem c a then star c k s' else None
  | EmptyString => None
  end.
End Matcher.

Definition captures := list string.

Fixpoint run (r : regex) (k : string -> captures -> option captures)
    (s : string) (caps : captures) : option captures :=
  match r with
  | Lit t =>
      match strip t s with
      | Some s' => k s' caps
      | None => None
      end
  | Star c => star c (fun s' => k s' caps) s
  | Plus c => plus c (fun s' => k s' caps) s
  | Group r1 => run r1 (fun s' caps' => k s' (caps' ++ [taken s s'])) s caps
  | Cat r1 r2 => run r1 (run r2 k) s caps
  end.

(** [re.match]: anchored at the start of the text, free at its end. *)
Definition re_match (r : regex) (s : string) : option captures :=
  run r (fun _ caps => Some caps) s [].

Declare Scope regex_scope.
Delimit Scope regex_scope with re.
Infix "·" := Cat (at level 60, right associativity) : regex_scope.

Definition digit : cset := Rng "0" "9".

(** [r'.*numactl +.*-C +([0-9]+)-([0-9]+).*'] *)
Definition numa_re : regex :=
  (Star Any · Lit "numactl" · Plus (Ch " ") · Star Any · Lit "-C"
   · Plus (Ch " ") · Group (Plus digit) · Lit "-" · Group (Plus digit)
   · Star Any)%re.

(** [int(s)] on a string of decimal digits, as the groups of [numa_re]
    are: the number it writes, leading zeros allowed.  CPython refuses a
    string of more than 4300 digits (the default of
    [sys.set_int_max_str_digits]) with [ValueError]. *)
Definition digit_val (a : ascii) : Z := Z.of_nat (nat_of_ascii a) - 48.

Fixpoint int_acc (acc : Z) (s : string) : Z :=
  match s with
  | EmptyString => acc
  | String a s' => int_acc (10 * acc + digit_val a) s'
  end.

Definition int_max_str_digits : nat := 4300.

Definition int (s : string) : result Z :=
  if (int_max_str_digits <? String.length s)%nat
  then Raise ValueError
  else Ok (int_acc 0 s).

(** [sub in s] *)
Fixpoint str_in (sub s : string) : bool :=
  String.prefix sub s
  || match s with
     | String _ s' => str_in sub s'
     | EmptyString => false
     end.

(** ** Python floats

    A [float] is an IEEE 754 binary64 number: precision 53, exponents up
    to 1024.  A sum or a product is the exact one rounded to the nearest
    float, ties to even, as [SFadd] and [SFmul] compute it. *)

Definition float : Type := spec_float.

(** [float(z)], the conversion Python makes when an integer meets a
    float in a sum or a product. *)
Definition float_of_int (z : Z) : float := binary_normalize 53 1024 z 0 false.

Definition float_add (x y : float) : float := SFadd 53 1024 x y.

Definition float_mul (x y : float) : float := SFmul 53 1024 x y.

(** A float compared with an integer: Python compares the exact values,
    without converting the integer.  [None] when the float is a NaN. *)
Definition float_cmp_int (x : float) (z : Z) : option comparison :=
  match x with
  | S754_nan => None
  | S754_infinity s => Some (if s then Lt else Gt)
  | S754_zero _ => Some (0 ?= z)
  | S754_finite s m e =>
      let v := if s then Z.neg m else Z.pos m in
      Some (if 0 <=? e then v * 2 ^ e ?= z else v ?= z * 2 ^ (- e))
  end.

(** [x < z] and [x > z] *)
Definition float_lt_int (x : float) (z : Z) : bool :=
  match float_cmp_int x z with
  | Some Lt => true
  | _ => false
  end.

Definition float_gt_int (x : float) (z : Z) : bool :=
  match float_cmp_int x z with
  | Some Gt => true
  | _ => false
  end.

(** ** What [psutil] and [random] report *)

(** A process of [psutil.process_iter()]: what [proc.cmdline()] and
    [proc.name()] give when called, a value or an exception. *)
Record Proc := {
  cmdline : result (list string);
  name : result string
}.

(** The observations of one turn of the polling loop. *)
Record Host := {
  process_iter : list Proc;
  (* [psutil.cpu_count(logical=b)]: a count, or [None] when undetermined *)
  cpu_count : bool -> option nat;
  (* [psutil.cpu_percent(interval=1, percpu=True)]: one value for each
     logical CPU *)
  cpu_percent : list float;
  (* the value of [random.random()] drawn by [random.uniform] *)
  random : float
}.

(** [random.uniform(a, b)] is [a + (b - a) * self.random()], for the
    integers [a] and [b] and the float [u] drawn: the product and the sum
    are those of floats. *)
Definition uniform (a b : Z) (u : float) : float :=
  float_add (float_of_int a) (float_mul (float_of_int (b - a)) u).

(** ** [get_free_cores] *)

Definition group (caps : captures) (i : nat) : string := nth (i - 1) caps "".

(** The body of the [try] block for one process: the cores it adds to
    [disable_cores]. *)
Definition pinned_cores (proc : Proc) : result (list Z) :=
  args <- cmdline proc ;;
  let joint := String.concat " " args in
  match re_match numa_re joint with
  | Some numa_match =>
      pname <- name proc ;;
      if negb (str_in "ssh" pname)
      then
        first <- int (group numa_match 1) ;;
        last <- int (group numa_match 2) ;;
        Ok (range first (last + 1))
      else Ok []
  | None => Ok []
  end.

(** [except (psutil.NoSuchProcess, psutil.AccessDenied, psutil.ZombieProcess)] *)
Definition caught (e : exn) : bool :=
  match e with
  | NoSuchProcess | AccessDenied | ZombieProcess => true
  | _ => false
  end.

(** The loop [for proc in psutil.process_iter()], from a given
    [disable_cores]. *)
Fixpoint scan_procs (procs : list Proc) (disable_cores : list Z)
    : result (list Z) :=
  match procs with
  | [] => Ok disable_cores
  | proc :: rest =>
      match pinned_cores proc with
      | Ok cores => scan_procs rest (disable_cores ++ cores)
      | Raise e => if caught e then scan_procs rest disable_cores else Raise e
      end
  end.

(** [sum(l)] for a list of floats: the floats are added one by one, from
    the left, to the start value 0, each partial sum rounded (CPython up
    to 3.11; later versions compensate the rounding of the partial
    sums). *)
Definition sum (l : list float) : float :=
  fold_left float_add l (float_of_int 0).

(** [set(disable_cores) & set(range(i * n, i * n + n))] is not empty. *)
Definition reserved (disable_cores : list Z) (n i : Z) : bool :=
  bool_decide ((list_to_set disable_cores : gset Z)
               ∩ list_to_set (range (i * n) (i * n + n)) ≠ ∅).

(** [sum(window_usage) < 30 * n and True not in map(lambda x: x > 90, window_usage)] *)
Definition idle (n : Z) (window_usage : list float) : bool :=
  float_lt_int (sum window_usage) (30 * n)
  && negb (existsb (Bool.eqb true)
             (map (fun x => float_gt_int x 90) window_usage)).

(** Window [i] passes both tests of the loop body. *)
Definition accepted (n : Z) (disable_cores : list Z) (core_usage : list float)
    (i : Z) : bool :=
  negb (reserved disable_cores n i)
  && idle n (slice core_usage (i * n) (i * n + n)).

(** The tuple of the [return] statement. *)
Definition numa_info (n num_logical_core i : Z) : result (Z * Z * Z) :=
  r <- pymod (i * n) num_logical_core ;;
  half <- floordiv num_logical_core 2 ;;
  node <- floordiv r half ;;
  Ok (node, i * n, i * n + n - 1).

(** The loop [for i in range(num_window)] over the indices still to
    visit; [None] when it runs to its end. *)
Fixpoint scan_windows (n num_logical_core : Z) (disable_cores : list Z)
    (core_usage : list float) (todo : list Z) : result (option (Z * Z * Z)) :=
  match todo with
  | [] => Ok None
  | i :: rest =>
      if reserved disable_cores n i
      then scan_windows n num_logical_core disable_cores core_usage rest
      else
        let window_usage := slice core_usage (i * n) (i * n + n) in
        if idle n window_usage
        then t <- numa_info n num_logical_core i ;; Ok (Some t)
        else scan_windows n num_logical_core disable_cores core_usage rest
  end.

(** One turn of [while True], up to the end of the [for] loop:
    [Some] tuple when the turn returns, [None] when it goes on to print
    and sleep. *)
Definition poll (n : Z) (h : Host) : result (option (Z * Z * Z)) :=
  disable_cores <- scan_procs (process_iter h) [] ;;
  match cpu_count h false with
  | None => Raise TypeError
  | Some count =>
      let num_logical_core := Z.of_nat count in
      let core_usage := cpu_percent h in
      num_window <- floordiv num_logical_core n ;;
      scan_windows n num_logical_core disable_cores core_usage
        (range 0 num_window)
  end.

(** What the function does that can be seen from outside. *)
Inductive event :=
| Print (n : Z) (core_usage : list float)  (* the "No free n cores found" line *)
| Sleep (seconds : float).

Inductive outcome :=
| Returned (t : Z * Z * Z)
| Raised (e : exn)
| Polling.                  (* still in the loop, waiting for the next sample *)

(** [get_free_cores(n)] run against the successive observations [hosts],
    one for each turn of the loop. *)
Fixpoint get_free_cores (n : Z) (hosts : list Host) : list event * outcome :=
  match hosts with
  | [] => ([], Polling)
  | h :: later =>
      match poll n h with
      | Raise e => ([], Raised e)
      | Ok (Some t) => ([], Returned t)
      | Ok None =>
          let (events, out) := get_free_cores n later in
          (Print n (cpu_percent h) :: Sleep (uniform 1 60 (random h)) :: events,
           out)
      end
  end.

(** ** [XiangShan.__exec_cmd] *)

(** How [proc.wait(self.timeout)] ends. *)
Inductive wait_result :=
| Exited (return_code : Z)
| TimeoutExpired
| KeyboardInterrupt.

Inductive action :=
| PrintCmd (cmd : string)
| Popen (cmd : string)
| PrintElapsed
| Killpg_SIGINT
| PrintInterrupted.

(** The call on [cmd], given how the wait ends: what it does, in order,
    and the value it returns. *)
Definition __exec_cmd (cmd : string) (w : wait_result) : list action * Z :=
  match w with
  | Exited return_code => ([PrintCmd cmd; Popen cmd; PrintElapsed], return_code)
  | TimeoutExpired | KeyboardInterrupt =>
      ([PrintCmd cmd; Popen cmd; Killpg_SIGINT; PrintInterrupted], 0)
  end.

(** * Notions used to state the properties *)

(** ** The language of a pattern

    [matches r s caps]: the text [s] is in the language of [r], and
    [caps] are the texts of its groups, in order. *)

Fixpoint all_in (c : cset) (s : string) : bool :=
  match s with
  | EmptyString => true
  | String a s' => mem c a && all_in c s'
  end.

Inductive matches : regex -> string -> captures -> Prop :=
| matches_lit t : matches (Lit t) t []
| matches_star c s : all_in c s = true -> matches (Star c) s []
| matches_plus c a s :
    all_in c (String a s) = true -> matches (Plus c) (String a s) []
| matches_group r s caps :
    matches r s caps -> matches (Group r) s (caps ++ [s])
| matches_cat r1 r2 s1 s2 caps1 caps2 :
    matches r1 s1 caps1 -> matches r2 s2 caps2 ->
    matches (Cat r1 r2) (s1 +:+ s2) (caps1 ++ caps2).

(** ** Pinned command lines *)

(** [s] reads: anything, [numactl], blanks, anything, [-C], blanks, the
    digits [g1], a dash, the digits [g2], anything; the parts before the
    second group hold no newline. *)
Definition pinning (s g1 g2 : string) : Prop :=
  exists pre sp1 mid sp2 post,
    s = pre +:+ "numactl" +:+ sp1 +:+ mid +:+ "-C" +:+ sp2
        +:+ g1 +:+ "-" +:+ g2 +:+ post
    /\ all_in Any pre = true
    /\ sp1 <> "" /\ all_in (Ch " ") sp1 = true
    /\ all_in Any mid = true
    /\ sp2 <> "" /\ all_in (Ch " ") sp2 = true
    /\ g1 <> "" /\ all_in digit g1 = true
    /\ g2 <> "" /\ all_in digit g2 = true.

(** [s] is empty or starts with a character outside the class [c]. *)
Definition starts_outside (c : cset) (s : string) : Prop :=
  match s with
  | EmptyString => True
  | String a _ => mem c a = false
  end.





(** The digits [g] write the number [z] in base ten, in the words of the
    Standard Library. *)
Definition writes (g : string) (z : Z) : Prop :=
  exists u, NilEmpty.uint_of_string g = Some u /\ z = Z.of_uint u.



(** ** Floats and integers *)



(** [x == z] *)
Definition float_eq_int (x : float) (z : Z) : bool :=
  match float_cmp_int x z with
  | Some Eq => true
  | _ => false
  end.



(** The float nearest to [k / 10]: a percentage with one decimal, as
    [psutil] rounds it. *)
Definition tenths (k : Z) : float :=
  SFdiv 53 1024 (float_of_int k) (float_of_int 10).

(** ** Sample hosts *)

Definition mkproc (args : list string) (pname : string) : Proc :=
  {| cmdline := Ok args; name := Ok pname |}.

Definition mkhost (procs : list Proc) (physical logical : nat)
    (usage : list float) (u : float) : Host :=
  {| process_iter := procs;
     cpu_count := fun b => Some (if b then logical else physical);
     cpu_percent := usage;
     random := u |}.

(** A simulation pinned to cores 0-7, a remote login whose command
    line quotes a pinning, a shell, and two processes that cannot be
    inspected. *)
Definition sample_procs : list Proc :=
  [ mkproc ["numactl"; "-m"; "0"; "-C"; "0-7"; "./build/emu"; "-i"; "a.bin"] "emu";
    mkproc ["ssh"; "node1"; "numactl -m 1 -C 8-15 ./build/emu"] "ssh";
    mkproc ["/bin/zsh"; "-C"; "16-23"] "zsh";
    {| cmdline := Raise AccessDenied; name := Ok "systemd" |};
    {| cmdline := Ok ["numactl"; "-C"; "24-31"; "x"]; name := Raise NoSuchProcess |} ].

(** 32 cores at rest, cores 0-7 pinned by another simulation. *)
Definition pinned_host : Host :=
  mkhost sample_procs 32 32 (repeat (tenths 0) 32) (tenths 5).

(** 64 cores, the first [busy] of them fully loaded. *)
Definition loaded_host (busy : nat) : Host :=
  mkhost [] 64 64 (repeat (tenths 1000) busy ++ repeat (tenths 0) (64 - busy))
    (tenths 0).

(** 4 cores, one core of each pair above 90: at 95.0 and at 95.5. *)
Definition hot_host : Host :=
  mkhost [] 4 4 [tenths 950; tenths 0; tenths 0; tenths 955] (tenths 5).

(** 2 cores with 2 threads each; the first two logical CPUs loaded. *)
Definition smt_host : Host :=
  mkhost [] 2 4 [tenths 1000; tenths 1000; tenths 0; tenths 0] (tenths 0).

(** A host with a single core, at rest. *)
Definition single_core_host : Host := mkhost [] 1 1 [tenths 0] (tenths 0).

(** 3 cores at 0.1, 64.1 and 25.8: the decimals add up to 90, the
    floats to the float just below 90. *)
Definition rounding_host : Host :=
  mkhost [] 3 3 [tenths 1; tenths 641; tenths 258] (tenths 5).




(** The turn of the loop as the specification words it: the windows
    partition the logical core count, the one the utilization snapshot
    ranges over. *)
Definition poll_logical (n : Z) (h : Host) : result (option (Z * Z * Z)) :=
  disable_cores <- scan_procs (process_iter h) [] ;;
  match cpu_count h true with
  | None => Raise TypeError
  | Some count =>
      let num_logical_core := Z.of_nat count in
      num_window <- floordiv num_logical_core n ;;
      scan_windows n num_logical_core disable_cores (cpu_percent h)
        (range 0 num_window)
  end.

(** The subprocess ran to its end and [__exec_cmd] hands back its exit
    code. *)
Definition propagates_exit_code (cmd : string) (w : wait_result) : Prop :=
  exists return_code, w = Exited return_code /\ (__exec_cmd cmd w).2 = return_code.

(** * The rest of the script

    The command-line wrapper around [get_free_cores] and [__exec_cmd]:
    the classes [XSArgs] and [XiangShan] and the two file finders.
    What a method prints is left out; what it reads from outside comes
    from a [World]. *)

(** ** Python values and text *)

(** An attribute that holds an integer or a string. *)
Inductive pyval :=
| VInt (z : Z)
| VStr (s : string).

(** [str(z)] for an integer. *)
Definition str (z : Z) : string := NilZero.string_of_int (Z.to_int z).

Definition str_val (v : pyval) : string :=
  match v with
  | VInt z => str z
  | VStr s => s
  end.

(** [f"{x}"] for an attribute that may be [None]. *)
Definition fmt (x : option pyval) : string :=
  match x with
  | Some v => str_val v
  | None => "None"
  end.

(** The double quote, as a one-character string. *)
Definition dq : string := String (ascii_of_nat 34) "".

(** [s.endswith(suffix)] *)
Fixpoint endswith (s suffix : string) : bool :=
  String.eqb s suffix
  || match s with
     | String _ s' => endswith s' suffix
     | EmptyString => false
     end.

(** [s.replace(old, new)] for a non-empty [old]: the occurrences of
    [old] are replaced from left to right, without overlap; [skip] counts
    the characters of an occurrence still to pass over. *)
Fixpoint replace_from (old new : string) (skip : nat) (s : string) : string :=
  match s with
  | EmptyString => ""
  | String a s' =>
      match skip with
      | S k => replace_from old new k s'
      | O =>
          if String.prefix old s
          then new +:+ replace_from old new (String.length old - 1) s'
          else String a (replace_from old new 0 s')
      end
  end.

Definition replace (s old new : string) : string := replace_from old new 0 s.

(** [os.path.join(a, *p)] on a POSIX host. *)
Definition join2 (path b : string) : string :=
  if String.prefix "/" b then b
  else if String.eqb path "" || endswith path "/" then path +:+ b
  else path +:+ "/" +:+ b.

Definition path_join (a : string) (p : list string) : string :=
  fold_left join2 p a.

(** ** Errors, effects and the outside world *)

Inductive error :=
| Exn (e : exn)
| AssertionError
| IndexError
| FileNotFoundError.

Inductive res (A : Type) :=
| Done (a : A)
| Fail (e : error).
Arguments Done {A} a.
Arguments Fail {A} e.

Definition and_then {A B} (r : res A) (f : A -> res B) : res B :=
  match r with
  | Done a => f a
  | Fail e => Fail e
  end.

Notation "x <~ r ;; k" := (and_then r (fun x => k))
  (at level 100, r at next level, right associativity).

(** What a call does that outlives it: the events of [get_free_cores]
    and the commands handed to [__exec_cmd], each with the way its wait
    ended. *)
Inductive effect :=
| Log (e : event)
| Exec (cmd : string) (w : wait_result).

(** How a call ends: with a return code, with an exception, or not at
    all while [get_free_cores] keeps polling. *)
Inductive ending :=
| Exit (ret : Z)
| Error (e : error)
| Blocked.

Record World := {
  (* [os.environ] *)
  environ : gmap string string;
  (* [os.path.realpath] *)
  realpath : string -> string;
  (* [os.path.dirname(script_path)] *)
  script_dir : string;
  (* [shlex.quote] *)
  quote : string -> string;
  (* the value of [random.randint(0, 9999)] *)
  randint : Z;
  (* the index [random.choice] draws for a sequence of the given length *)
  randbelow : nat -> nat;
  (* [os.walk(root)]: the triples (dirpath, dirnames, filenames) *)
  walk : string -> list (string * list string * list string);
  (* [os.listdir(path)], when the directory exists *)
  listdir : string -> option (list string);
  (* what [get_free_cores] observes, turn after turn, when called for
     the workload *)
  observe : string -> list Host;
  (* how [proc.wait(self.timeout)] ends for the command *)
  wait : string -> wait_result;
  (* the content of the file, when it can be opened *)
  read : string -> option string
}.

(** ** The file finders *)

Definition find_files_with_suffix (w : World) (root_dir : string)
    (suffixes : list string) : list string :=
  flat_map
    (fun '(dirpath, _, filenames) =>
       flat_map
         (fun filename =>
            if existsb (fun suffix => endswith filename suffix) suffixes
            then [path_join dirpath [filename]]
            else [])
         filenames)
    (walk w root_dir).

Definition load_all_gcpt (w : World) (gcpt_paths : list string) : list string :=
  flat_map (fun gcpt_path => find_files_with_suffix w gcpt_path [".zstd"; ".gz"])
    gcpt_paths.

(** [random.choice(seq)] *)
Definition choice (w : World) (seq : list string) : res string :=
  if (length seq =? 0)%nat then Fail IndexError
  else match seq !! randbelow w (length seq) with
       | Some x => Done x
       | None => Fail IndexError
       end.

(** ** The parsed command line *)

Module Namespace.
Record t := {
  workload : string;
  build : bool;
  generate : bool;
  vcs_gen : bool;
  vcs_build : bool;
  ci : option string;
  ci_vcs : option string;
  clean : bool;
  timeout : option Z;
  nemu : option string;
  am : option string;
  dramsim3 : option string;
  rvtest : option string;
  wave_dump : option string;
  enable_log : bool;
  num_cores : option Z;
  release : bool;
  spike : bool;
  with_dramsim3 : bool;
  threads : option Z;
  make_threads : option Z;
  trace : bool;
  trace_fst : bool;
  config : option string;
  yaml_config : option string;
  emu_optimize : option string;
  xprop : bool;
  issue : option string;
  numa : bool;
  diff : option string;
  max_instr : option Z;
  disable_fork : bool;
  no_diff : bool;
  ram_size : option string;
  gcpt_restore_bin : string;
  no_db : bool;
  pgo : option string;
  pgo_max_cycle : option Z;
  pgo_emu_args : option string;
  llvm_profdata : option string
}.
End Namespace.

(** ** [class XSArgs] *)

Module XSArgs.
Record t := {
  noop_home : string;
  nemu_home : string;
  am_home : string;
  dramsim3_home : string;
  rvtest_home : string;
  default_wave_home : string;
  wave_home : string;
  enable_log : bool;
  num_cores : option pyval;
  threads : option Z;
  make_threads : option pyval;
  with_dramsim3 : option pyval;
  is_release : option pyval;
  is_spike : option pyval;
  trace : option pyval;
  trace_fst : option pyval;
  config : option pyval;
  yaml_config : option pyval;
  emu_optimize : option pyval;
  xprop : option pyval;
  issue : option pyval;
  with_chiseldb : option pyval;
  max_instr : option pyval;
  ram_size : option pyval;
  seed : option pyval;
  numa : bool;
  diff : option pyval;
  fork : bool;
  disable_diff : bool;
  disable_db : bool;
  gcpt_restore_bin : string;
  pgo : option pyval;
  pgo_max_cycle : option pyval;
  pgo_emu_args : option pyval;
  llvm_profdata : option pyval
}.

(** The class attributes: the default paths. *)
Definition class_noop_home (w : World) : string := path_join (script_dir w) [".."].
Definition class_nemu_home (w : World) : string := path_join (class_noop_home w) ["../NEMU"].
Definition class_am_home (w : World) : string := path_join (class_noop_home w) ["../nexus-am"].
Definition class_dramsim3_home (w : World) : string := path_join (class_noop_home w) ["../DRAMsim3"].
Definition class_rvtest_home (w : World) : string := path_join (class_noop_home w) ["../riscv-tests"].
Definition class_default_wave_home (w : World) : string := path_join (class_noop_home w) ["build"].

Definition __extract_path (w : World) (path env default : option string)
    : res string :=
  let path :=
    match path, env with
    | None, Some env => environ w !! env
    | _, _ => path
    end in
  let path :=
    match path, default with
    | None, Some default => Some default
    | _, _ => path
    end in
  match path with
  | Some path => Done (realpath w path)
  | None => Fail (Exn TypeError)        (* [os.path.realpath(None)] *)
  end.

(** [1 if flag else None] *)
Definition one_if (flag : bool) : option pyval :=
  if flag then Some (VInt 1) else None.

Definition __init__ (w : World) (args : Namespace.t) : res t :=
  noop_home <~ __extract_path w None (Some "NOOP_HOME") (Some (class_noop_home w)) ;;
  nemu_home <~ __extract_path w (Namespace.nemu args) (Some "NEMU_HOME")
                 (Some (class_nemu_home w)) ;;
  am_home <~ __extract_path w (Namespace.am args) (Some "AM_HOME")
               (Some (class_am_home w)) ;;
  dramsim3_home <~ __extract_path w (Namespace.dramsim3 args) (Some "DRAMSIM3_HOME")
                     (Some (class_dramsim3_home w)) ;;
  rvtest_home <~ __extract_path w (Namespace.rvtest args) (Some "RVTEST_HOME")
                   (Some (class_rvtest_home w)) ;;
  diff <~ (if Namespace.spike args
           then match Namespace.diff args with
                | None => Fail (Exn TypeError)    (* ["nemu" in None] *)
                | Some d =>
                    if str_in "nemu" d
                    then Done (Some (replace d "nemu-interpreter" "spike"))
                    else Done (Some d)
                end
           else Done (Namespace.diff args)) ;;
  Done {|
    noop_home := noop_home;
    nemu_home := nemu_home;
    am_home := am_home;
    dramsim3_home := dramsim3_home;
    rvtest_home := rvtest_home;
    default_wave_home := class_default_wave_home w;
    wave_home := match Namespace.wave_dump args with
                 | Some path => path
                 | None => class_default_wave_home w
                 end;
    enable_log := Namespace.enable_log args;
    num_cores := VInt <$> Namespace.num_cores args;
    threads := Namespace.threads args;
    make_threads := VInt <$> Namespace.make_threads args;
    with_dramsim3 := one_if (Namespace.with_dramsim3 args);
    is_release := one_if (Namespace.release args);
    is_spike := if Namespace.spike args then Some (VStr "Spike") else None;
    trace := one_if (Namespace.trace args
                     || negb (Namespace.disable_fork args)
                        && negb (Namespace.trace_fst args));
    trace_fst := if Namespace.trace_fst args then Some (VStr "fst") else None;
    config := VStr <$> Namespace.config args;
    yaml_config := VStr <$> Namespace.yaml_config args;
    emu_optimize := VStr <$> Namespace.emu_optimize args;
    xprop := one_if (Namespace.xprop args);
    issue := VStr <$> Namespace.issue args;
    with_chiseldb := Some (VInt (if Namespace.no_db args then 0 else 1));
    max_instr := VInt <$> Namespace.max_instr args;
    ram_size := VStr <$> Namespace.ram_size args;
    seed := Some (VInt (randint w));
    numa := Namespace.numa args;
    diff := VStr <$> diff;
    fork := negb (Namespace.disable_fork args);
    disable_diff := Namespace.no_diff args;
    disable_db := Namespace.no_db args;
    gcpt_restore_bin := Namespace.gcpt_restore_bin args;
    pgo := VStr <$> Namespace.pgo args;
    pgo_max_cycle := VInt <$> Namespace.pgo_max_cycle args;
    pgo_emu_args := VStr <$> Namespace.pgo_emu_args args;
    llvm_profdata := VStr <$> Namespace.llvm_profdata args
  |}.

Definition get_env_variables (self : t) : list (string * string) :=
  [ ("NOOP_HOME", noop_home self);
    ("NEMU_HOME", nemu_home self);
    ("WAVE_HOME", wave_home self);
    ("AM_HOME", am_home self);
    ("DRAMSIM3_HOME", dramsim3_home self);
    ("MODULEPATH", "/usr/share/Modules/modulefiles:/etc/modulefiles") ].

Definition get_chisel_args (self : t) (prefix : option string) : list string :=
  let chisel_args := [(enable_log self, "enable-log")] in
  let args := map snd (filter (fun arg => fst arg = true) chisel_args) in
  match prefix with
  | Some prefix => map (fun x => prefix +:+ x) args
  | None => args
  end.

(** The pairs whose first component is not [None]. *)
Definition not_none {A} (l : list (option A * string)) : list (A * string) :=
  flat_map (fun arg => match fst arg with
                       | Some v => [(v, snd arg)]
                       | None => []
                       end) l.

Definition get_makefile_args (w : World) (self : t) : list (string * string) :=
  let makefile_args :=
    [ (VInt <$> threads self, "EMU_THREADS");
      (with_dramsim3 self, "WITH_DRAMSIM3");
      (is_release self, "RELEASE");
      (is_spike self, "REF");
      (trace self, "EMU_TRACE");
      (trace_fst self, "EMU_TRACE");
      (config self, "CONFIG");
      (num_cores self, "NUM_CORES");
      (emu_optimize self, "EMU_OPTIMIZE");
      (xprop self, "ENABLE_XPROP");
      (with_chiseldb self, "WITH_CHISELDB");
      (yaml_config self, "YAML_CONFIG");
      (pgo self, "PGO_WORKLOAD");
      (pgo_max_cycle self, "PGO_MAX_CYCLE");
      (pgo_emu_args self, "PGO_EMU_ARGS");
      (llvm_profdata self, "LLVM_PROFDATA");
      (issue self, "ISSUE") ] in
  let args := not_none makefile_args in
  map (fun arg => (quote w (str_val (fst arg)), snd arg)) args.

Definition get_emu_args (self : t) : list (pyval * string) :=
  let emu_args :=
    [ (max_instr self, "max-instr");
      (diff self, "diff");
      (seed self, "seed");
      (ram_size self, "ram-size") ] in
  not_none emu_args.
End XSArgs.


(** ** [class XiangShan] *)

Module XiangShan.
Record t := {
  args : XSArgs.t;
  timeout : option Z
}.

Definition __init__ (w : World) (args : Namespace.t) : res t :=
  xsargs <~ XSArgs.__init__ w args ;;
  Done {| args := xsargs; timeout := Namespace.timeout args |}.

(** A call of [self.__exec_cmd(cmd)]: the command run and the code
    returned. *)
Definition exec (w : World) (cmd : string) : list effect * ending :=
  ([Exec cmd (wait w cmd)], Exit (__exec_cmd cmd (wait w cmd)).2).

(** [" ".join(map(lambda arg: f"{arg[1]}={arg[0]}", self.args.get_makefile_args()))] *)
Definition make_args (w : World) (self : t) : string :=
  String.concat " "
    (map (fun arg => snd arg +:+ "=" +:+ fst arg)
       (XSArgs.get_makefile_args w (args self))).

(** [" ".join(self.args.get_chisel_args(prefix="--"))] *)
Definition sim_args (self : t) : string :=
  String.concat " " (XSArgs.get_chisel_args (args self) (Some "--")).

Definition make_clean (w : World) (self : t) : list effect * ending :=
  exec w "make -C $NOOP_HOME clean".

Definition generate_verilog (w : World) (self : t) : list effect * ending :=
  exec w ("make -C $NOOP_HOME verilog SIM_ARGS=" +:+ dq +:+ sim_args self
          +:+ dq +:+ " " +:+ make_args w self).

Definition generate_sim_verilog (w : World) (self : t) : list effect * ending :=
  exec w ("make -C $NOOP_HOME sim-verilog SIM_ARGS=" +:+ dq +:+ sim_args self
          +:+ dq +:+ " " +:+ make_args w self).

Definition build_emu (w : World) (self : t) : list effect * ending :=
  let threads := XSArgs.make_threads (args self) in
  exec w ("make -C $NOOP_HOME emu -j" +:+ fmt threads +:+ " SIM_ARGS=" +:+ dq
          +:+ sim_args self +:+ dq +:+ " " +:+ make_args w self).

Definition build_simv (w : World) (self : t) : list effect * ending :=
  exec w ("            eval `/usr/bin/modulecmd zsh load license`;            eval `/usr/bin/modulecmd zsh load synopsys/vcs/Q-2020.03-SP2`;            eval `/usr/bin/modulecmd zsh load synopsys/verdi/S-2021.09-SP1`;            VERDI_HOME=/nfs/tools/synopsys/verdi/S-2021.09-SP1             make -C $NOOP_HOME simv "
          +:+ make_args w self +:+ " CONSIDER_FSDB=1").

(** [get_free_cores(None)]: the first turn scans the processes and
    samples the processors, then [num_logical_core // n] raises. *)
Definition get_free_cores_None (hosts : list Host) : list event * outcome :=
  match hosts with
  | [] => ([], Polling)
  | h :: _ =>
      match scan_procs (process_iter h) [] with
      | Ok _ => ([], Raised TypeError)
      | Raise e => ([], Raised e)
      end
  end.

(** [f"numactl -m {numa_info[0]} -C {numa_info[1]}-{numa_info[2]}"] *)
Definition numa_args_of (numa_info : Z * Z * Z) : string :=
  "numactl -m " +:+ str numa_info.1.1 +:+ " -C " +:+ str numa_info.1.2
  +:+ "-" +:+ str numa_info.2.

(** The command of [run_emu], for the [numa_args] already chosen. *)
Definition emu_cmd (self : t) (workload numa_args : string) : string :=
  let emu_args :=
    String.concat " "
      (map (fun arg => "--" +:+ snd arg +:+ " " +:+ str_val (fst arg))
         (XSArgs.get_emu_args (args self))) in
  let fork_args := if XSArgs.fork (args self) then "--enable-fork" else "" in
  let diff_args := if XSArgs.disable_diff (args self) then "--no-diff" else "" in
  let chiseldb_args := if negb (XSArgs.disable_db (args self)) then "--dump-db" else "" in
  let gcpt_restore_args :=
    if negb (String.length (XSArgs.gcpt_restore_bin (args self)) =? 0)%nat
    then "-r " +:+ XSArgs.gcpt_restore_bin (args self)
    else "" in
  "ulimit -s " +:+ str (32 * 1024) +:+ "; " +:+ numa_args
  +:+ " $NOOP_HOME/build/emu -i " +:+ workload +:+ " " +:+ emu_args
  +:+ " " +:+ fork_args +:+ " " +:+ diff_args +:+ " " +:+ chiseldb_args
  +:+ " " +:+ gcpt_restore_args.

Definition run_emu (w : World) (self : t) (workload : string)
    : list effect * ending :=
  if XSArgs.numa (args self)
  then
    let polled :=
      match XSArgs.threads (args self) with
      | Some n => get_free_cores n (observe w workload)
      | None => get_free_cores_None (observe w workload)
      end in
    match polled with
    | (events, Returned numa_info) =>
        let (effects, e) := exec w (emu_cmd self workload (numa_args_of numa_info)) in
        (map Log events ++ effects, e)
    | (events, Raised e) => (map Log events, Error (Exn e))
    | (events, Polling) => (map Log events, Blocked)
    end
  else exec w (emu_cmd self workload "").

(** [run_simv]; [args] is the global [args] of the script, which the
    method reads for [diff]. *)
Definition run_simv (w : World) (self : t) (args0 : Namespace.t)
    (workload : string) : list effect * ending :=
  match Namespace.diff args0 with
  | None => ([], Error (Exn TypeError))        (* ["$NOOP_HOME/" + None] *)
  | Some diff =>
      let diff_args := "$NOOP_HOME/" +:+ diff in
      let assert_args := "-assert finish_maxfail=30 -assert global_finish_maxfail=10000" in
      let cmd := "cd $NOOP_HOME/build && ./simv +workload=" +:+ workload
                 +:+ " +diff=" +:+ diff_args +:+ " +dump-wave=fsdb "
                 +:+ assert_args +:+ " | tee simv.log" in
      let return_code := (__exec_cmd cmd (wait w cmd)).2 in
      match read w (XSArgs.noop_home (args self) +:+ "/build/simv.log") with
      | None => ([Exec cmd (wait w cmd)], Error FileNotFoundError)
      | Some content =>
          ([Exec cmd (wait w cmd)],
           Exit (if str_in "Offending" content
                    || negb (str_in "HIT GOOD TRAP" content)
                 then 1 else return_code))
      end
  end.

(** The loop [for i, action in enumerate(valid_actions)] of [run]. *)
Fixpoint run_actions (valid_actions : list (list effect * ending))
    : list effect * ending :=
  match valid_actions with
  | [] => ([], Exit 0)
  | (effects, Exit ret) :: later =>
      if negb (ret =? 0) then (effects, Exit ret)
      else let (effects', e) := run_actions later in (effects ++ effects', e)
  | (effects, e) :: _ => (effects, e)
  end.

(** *** The test suites *)

Definition __get_ci_cputest (w : World) : res (list string) :=
  let base_dir := "/nfs/home/share/ci-workloads/nexus-am-workloads/tests/cputest" in
  match listdir w base_dir with
  | None => Fail FileNotFoundError
  | Some cputest =>
      let cputest := filter (fun x => endswith x ".bin" = true) cputest in
      Done (map (fun x => path_join base_dir [x]) cputest)
  end.

Definition all_rv_tests : list string := ["rv64ui"; "rv64um"; "rv64ua"; "rv64uf"; "rv64ud"; "rv64mi"].

Definition __get_ci_rvtest (w : World) (self : t) : res (list string) :=
  let base_dir := path_join (XSArgs.rvtest_home (args self)) ["isa/build"] in
  match listdir w base_dir with
  | None => Fail FileNotFoundError
  | Some riscv_tests =>
      let riscv_tests := filter (fun x => endswith x ".bin" = true) riscv_tests in
      let riscv_tests :=
        filter (fun x => String.substring 0 6 x ∈ all_rv_tests) riscv_tests in
      Done (map (fun x => path_join base_dir [x]) riscv_tests)
  end.

Definition __get_ci_misc : list string :=
  let base_dir := "/nfs/home/share/ci-workloads" in
  let workloads :=
    [ "bitmanip/bitMisc.bin";
      "crypto/crypto-riscv64-noop.bin";
      "nexus-am-workloads/amtest/external_intr-riscv64-xs.bin";
      "nexus-am-workloads/tests/aliastest/aliastest-riscv64-xs.bin";
      "Svinval/rv64mi-p-svinval.bin";
      "pmp/pmp.riscv.bin";
      "nexus-am-workloads/amtest/pmp_test-riscv64-xs.bin";
      "nexus-am-workloads/amtest/sv39_hp_atom_test-riscv64-xs.bin";
      "asid/asid.bin";
      "isa_misc/xret_clear_mprv.bin";
      "isa_misc/satp_ppn.bin";
      "cache-management/softprefetchtest-riscv64-xs.bin";
      "smstateen/rvh_test.bin";
      "zacas/zacas-riscv64-xs.bin";
      "Svpbmt/rvh_test.bin";
      "Svnapot/svnapot-test.bin";
      "Zawrs/Zawrs-zawrs.bin" ] in
  map (fun x => path_join base_dir [x]) workloads.

Definition __get_ci_rvhtest : list string :=
  let base_dir := "/nfs/home/share/ci-workloads/H-extension-tests" in
  let workloads :=
    [ "riscv-hyp-tests/rvh_test.bin";
      "xvisor_wboxtest/checkpoint.gz";
      "pointer-masking-test/M_HS_test/rvh_test.bin";
      "pointer-masking-test/U_test/hint_UMode_hupmm2/rvh_test.bin";
      "pointer-masking-test/U_test/vu_senvcfgpmm2/rvh_test.bin" ] in
  map (fun x => path_join base_dir [x]) workloads.

Definition __get_ci_rvvbench : list string :=
  let base_dir := "/nfs/home/share/ci-workloads" in
  let workloads :=
    [ "rvv-bench/poly1305.bin";
      "rvv-bench/mergelines.bin" ] in
  map (fun x => path_join base_dir [x]) workloads.

Definition __get_ci_rvvtest : list string :=
  let base_dir := "/nfs/home/share/ci-workloads/V-extension-tests" in
  let workloads :=
    [ "rvv-test/vluxei32.v-0.bin";
      "rvv-test/vlsseg4e32.v-0.bin";
      "rvv-test/vlseg4e32.v-0.bin";
      "rvv-test/vsetvl-0.bin";
      "rvv-test/vsetivli-0.bin";
      "rvv-test/vsuxei32.v-0.bin";
      "rvv-test/vse16.v-0.bin";
      "rvv-test/vsse16.v-1.bin";
      "rvv-test/vlse32.v-0.bin";
      "rvv-test/vsetvli-0.bin";
      "rvv-test/vle16.v-0.bin";
      "rvv-test/vle32.v-0.bin";
      "rvv-test/vfsgnj.vv-0.bin";
      "rvv-test/vfadd.vf-0.bin";
      "rvv-test/vfsub.vf-0.bin";
      "rvv-test/vslide1down.vx-0.bin" ] in
  map (fun x => path_join base_dir [x]) workloads.

Definition __get_ci_F16test : list string :=
  let base_dir := "/nfs/home/share/ci-workloads/vector/F16-tests/build" in
  let workloads :=
    [ "rv64uzfhmin-p-fzfhmincvt.bin";
      "rv64uzfh-p-fadd.bin";
      "rv64uzfh-p-fclass.bin";
      "rv64uzfh-p-fcmp.bin";
      "rv64uzfh-p-fcvt.bin";
      "rv64uzfh-p-fcvt_w.bin";
      "rv64uzfh-p-fdiv.bin";
      "rv64uzfh-p-fmadd.bin";
      "rv64uzfh-p-fmin.bin";
      "rv64uzfh-p-ldst.bin";
      "rv64uzfh-p-move.bin";
      "rv64uzfh-p-recoding.bin";
      "rv64uzvfh-p-vfadd.bin";
      "rv64uzvfh-p-vfclass.bin";
      "rv64uzvfh-p-vfcvtfx.bin";
      "rv64uzvfh-p-vfcvtfxu.bin";
      "rv64uzvfh-p-vfcvtrxf.bin";
      "rv64uzvfh-p-vfcvtrxuf.bin";
      "rv64uzvfh-p-vfcvtxf.bin";
      "rv64uzvfh-p-vfcvtxuf.bin";
      "rv64uzvfh-p-vfdiv.bin";
      "rv64uzvfh-p-vfdown.bin";
      "rv64uzvfh-p-vfmacc.bin";
      "rv64uzvfh-p-vfmadd.bin";
      "rv64uzvfh-p-vfmax.bin";
      "rv64uzvfh-p-vfmerge.bin";
      "rv64uzvfh-p-vfmin.bin";
      "rv64uzvfh-p-vfmsac.bin";
      "rv64uzvfh-p-vfmsub.bin";
      "rv64uzvfh-p-vfmul.bin";
      "rv64uzvfh-p-vfmv.bin";
      "rv64uzvfh-p-vfncvtff.bin";
      "rv64uzvfh-p-vfncvtfx.bin";
      "rv64uzvfh-p-vfncvtfxu.bin";
      "rv64uzvfh-p-vfncvtrff.bin";
      "rv64uzvfh-p-vfncvtrxf.bin";
      "rv64uzvfh-p-vfncvtrxuf.bin";
      "rv64uzvfh-p-vfncvtxf.bin";
      "rv64uzvfh-p-vfncvtxuf.bin";
      "rv64uzvfh-p-vfnmacc.bin";
      "rv64uzvfh-p-vfnmadd.bin";
      "rv64uzvfh-p-vfnmsac.bin";
      "rv64uzvfh-p-vfnmsub.bin";
      "rv64uzvfh-p-vfrdiv.bin";
      "rv64uzvfh-p-vfrec7.bin";
      "rv64uzvfh-p-vfredmax.bin";
      "rv64uzvfh-p-vfredmin.bin";
      "rv64uzvfh-p-vfredosum.bin";
      "rv64uzvfh-p-vfredusum.bin";
      "rv64uzvfh-p-vfrsqrt7.bin";
      "rv64uzvfh-p-vfrsub.bin";
      "rv64uzvfh-p-vfsgnj.bin";
      "rv64uzvfh-p-vfsgnjn.bin";
      "rv64uzvfh-p-vfsgnjx.bin";
      "rv64uzvfh-p-vfsqrt.bin";
      "rv64uzvfh-p-vfsub.bin";
      "rv64uzvfh-p-vfup.bin";
      "rv64uzvfh-p-vfwadd.bin";
      "rv64uzvfh-p-vfwadd-w.bin";
      "rv64uzvfh-p-vfwcvtff.bin";
      "rv64uzvfh-p-vfwcvtfx.bin";
      "rv64uzvfh-p-vfwcvtfxu.bin";
      "rv64uzvfh-p-vfwcvtrxf.bin";
      "rv64uzvfh-p-vfwcvtrxuf.bin";
      "rv64uzvfh-p-vfwcvtxf.bin";
      "rv64uzvfh-p-vfwcvtxuf.bin";
      "rv64uzvfh-p-vfwmacc.bin";
      "rv64uzvfh-p-vfwmsac.bin";
      "rv64uzvfh-p-vfwmul.bin";
      "rv64uzvfh-p-vfwnmacc.bin";
      "rv64uzvfh-p-vfwnmsac.bin";
      "rv64uzvfh-p-vfwredosum.bin";
      "rv64uzvfh-p-vfwredusum.bin";
      "rv64uzvfh-p-vfwsub.bin";
      "rv64uzvfh-p-vfwsub-w.bin";
      "rv64uzvfh-p-vmfeq.bin";
      "rv64uzvfh-p-vmfge.bin";
      "rv64uzvfh-p-vmfgt.bin";
      "rv64uzvfh-p-vmfle.bin";
      "rv64uzvfh-p-vmflt.bin";
      "rv64uzvfh-p-vmfne.bin" ] in
  map (fun x => path_join base_dir [x]) workloads.

Definition __get_ci_zcbtest : list string :=
  let base_dir := "/nfs/home/share/ci-workloads/zcb-test" in
  let workloads :=
    [ "zcb-test-riscv64-xs.bin" ] in
  map (fun x => path_join base_dir [x]) workloads.

Definition __get_ci_mc : list string :=
  let base_dir := "/nfs/home/share/ci-workloads" in
  let workloads :=
    [ "nexus-am-workloads/tests/dualcoretest/ldvio-riscv64-xs.bin" ] in
  map (fun x => path_join base_dir [x]) workloads.

Definition __get_ci_nodiff : list string :=
  let base_dir := "/nfs/home/share/ci-workloads" in
  let workloads :=
    [ "cache-management/cacheoptest-riscv64-xs.bin" ] in
  map (fun x => path_join base_dir [x]) workloads.

Definition workloads : gmap string string :=
  list_to_map
    [ ("linux-hello", "bbl.bin");
      ("linux-hello-smp", "bbl.bin");
      ("linux-hello-opensbi", "fw_payload.bin");
      ("linux-hello-smp-opensbi", "fw_payload.bin");
      ("linux-hello-new", "bbl.bin");
      ("linux-hello-smp-new", "bbl.bin");
      ("povray", "_700480000000_.gz");
      ("mcf", "_17520000000_.gz");
      ("xalancbmk", "_266100000000_.gz");
      ("gcc", "_39720000000_.gz");
      ("namd", "_434640000000_.gz");
      ("milc", "_103620000000_.gz");
      ("lbm", "_140840000000_.gz");
      ("gromacs", "_275480000000_.gz");
      ("wrf", "_1916220000000_.gz");
      ("astar", "_122060000000_.gz");
      ("hmmer-Vector", "_6598_0.250135_.zstd") ].

Definition all_cpt_dir : list string :=
  [ "/nfs/home/share/checkpoints_profiles/spec06_rv64gcb_o2_20m/take_cpt";
    "/nfs/home/share/checkpoints_profiles/spec06_rv64gcb_o3_20m/take_cpt";
    "/nfs/home/share/checkpoints_profiles/spec06_rv64gc_o2_20m/take_cpt";
    "/nfs/home/share/checkpoints_profiles/spec06_rv64gc_o2_50m/take_cpt";
    "/nfs/home/share/checkpoints_profiles/spec17_rv64gcb_o2_20m/take_cpt";
    "/nfs/home/share/checkpoints_profiles/spec17_rv64gcb_o3_20m/take_cpt";
    "/nfs/home/share/checkpoints_profiles/spec17_rv64gc_o2_50m/take_cpt";
    "/nfs/home/share/checkpoints_profiles/spec17_speed_rv64gcb_o3_20m/take_cpt";
    "/nfs/home/share/checkpoints_profiles/spec06_rv64gcb_O3_20m_gcc12.2.0-intFpcOff-jeMalloc/zstd-checkpoint-0-0-0";
    "/nfs/home/share/checkpoints_profiles/spec06_gcc15_rv64gcbv_O3_lto_base_nemu_single_core_NEMU_archgroup_2024-10-12-16-05/checkpoint-0-0-0" ].

Definition __am_apps_path (bench : string) : list string :=
  let base_dir := "/nfs/home/share/ci-workloads/nexus-am-workloads/apps" in
  let filename := bench +:+ "-riscv64-xs.bin" in
  [path_join base_dir [bench; filename]].

Definition __get_ci_workloads (w : World) (name : string) : res (list string) :=
  match workloads !! name with
  | Some file => Done [path_join "/nfs/home/share/ci-workloads" [name; file]]
  | None =>
      (* select a random SPEC checkpoint *)
      if negb (String.eqb name "random") then Fail AssertionError
      else
        let all_gcpt := load_all_gcpt w all_cpt_dir in
        x <~ choice w all_gcpt ;; Done [x]
  end.

(** The values of the dictionary [all_tests]. *)
Inductive suite :=
| get_ci_cputest
| get_ci_rvtest
| get_ci_misc
| get_ci_mc
| get_ci_nodiff
| get_ci_rvhtest
| am_apps_path
| get_ci_rvvbench
| get_ci_rvvtest
| get_ci_F16test
| get_ci_zcbtest
| get_ci_workloads.

Definition all_tests : gmap string suite :=
  list_to_map
    [ ("cputest", get_ci_cputest);
      ("riscv-tests", get_ci_rvtest);
      ("misc-tests", get_ci_misc);
      ("mc-tests", get_ci_mc);
      ("nodiff-tests", get_ci_nodiff);
      ("rvh-tests", get_ci_rvhtest);
      ("microbench", am_apps_path);
      ("coremark", am_apps_path);
      ("coremark-1-iteration", am_apps_path);
      ("rvv-bench", get_ci_rvvbench);
      ("rvv-test", get_ci_rvvtest);
      ("f16_test", get_ci_F16test);
      ("zcb-test", get_ci_zcbtest) ].

(** [all_tests.get(test, self.__get_ci_workloads)(test)] *)
Definition targets (w : World) (self : t) (test : string) : res (list string) :=
  match default get_ci_workloads (all_tests !! test) with
  | get_ci_cputest => __get_ci_cputest w
  | get_ci_rvtest => __get_ci_rvtest w self
  | get_ci_misc => Done __get_ci_misc
  | get_ci_mc => Done __get_ci_mc
  | get_ci_nodiff => Done __get_ci_nodiff
  | get_ci_rvhtest => Done __get_ci_rvhtest
  | am_apps_path => Done (__am_apps_path test)
  | get_ci_rvvbench => Done __get_ci_rvvbench
  | get_ci_rvvtest => Done __get_ci_rvvtest
  | get_ci_F16test => Done __get_ci_F16test
  | get_ci_zcbtest => Done __get_ci_zcbtest
  | get_ci_workloads => __get_ci_workloads w test
  end.

(** The loop [for target in ...] of [run_ci] and of [run_ci_vcs]: [run]
    is the method called on each target, [copies] the commands that
    save the wave files after a failure. *)
Fixpoint ci_loop (w : World) (self : t) (run : string -> list effect * ending)
    (copies : list string) (todo : list string) : list effect * ending :=
  match todo with
  | [] => ([], Exit 0)
  | target :: later =>
      match run target with
      | (effects, Exit ret) =>
          if negb (ret =? 0)
          then
            (effects
             ++ (if negb (String.eqb (XSArgs.default_wave_home (args self))
                                     (XSArgs.wave_home (args self)))
                 then flat_map (fun cmd => (exec w cmd).1) copies
                 else []),
             Exit ret)
          else
            let (effects', e) := ci_loop w self run copies later in
            (effects ++ effects', e)
      | (effects, e) => (effects, e)
      end
  end.

Definition run_ci (w : World) (self : t) (test : string) : list effect * ending :=
  match targets w self test with
  | Fail e => ([], Error e)
  | Done todo =>
      ci_loop w self (run_emu w self)
        [ "cp $NOOP_HOME/build/*.vcd $WAVE_HOME";
          "cp $NOOP_HOME/build/*.fst $WAVE_HOME";
          "cp $NOOP_HOME/build/emu $WAVE_HOME";
          "cp $NOOP_HOME/build/rtl/SimTop.v $WAVE_HOME";
          "cp $NOOP_HOME/build/*.db $WAVE_HOME" ]
        todo
  end.

Definition run_ci_vcs (w : World) (self : t) (args0 : Namespace.t)
    (test : string) : list effect * ending :=
  match targets w self test with
  | Fail e => ([], Error e)
  | Done todo =>
      ci_loop w self (run_simv w self args0)
        [ "cp $NOOP_HOME/build/*.fsdb $WAVE_HOME";
          "cp $NOOP_HOME/build/simv $WAVE_HOME";
          "cp $NOOP_HOME/build/rtl/SimTop.v $WAVE_HOME";
          "cp $NOOP_HOME/build/*.db $WAVE_HOME" ]
        todo
  end.

Definition run (w : World) (self : t) (args0 : Namespace.t)
    : list effect * ending :=
  match Namespace.ci args0 with
  | Some test => run_ci w self test
  | None =>
      match Namespace.ci_vcs args0 with
      | Some test => run_ci_vcs w self args0 test
      | None =>
          let actions :=
            [ (Namespace.generate args0, generate_verilog w self);
              (Namespace.vcs_gen args0, generate_sim_verilog w self);
              (Namespace.build args0, build_emu w self);
              (Namespace.vcs_build args0, build_simv w self);
              (negb (String.eqb (Namespace.workload args0) ""),
               run_emu w self (Namespace.workload args0));
              (Namespace.clean args0, make_clean w self) ] in
          let valid_actions := map snd (filter (fun act => fst act = true) actions) in
          run_actions valid_actions
      end
  end.

(** The environment [__exec_cmd] hands to the subprocess:
    [dict(os.environ)] updated with [get_env_variables()]. *)
Definition exec_env (w : World) (self : t) : gmap string string :=
  foldl (fun env kv => <[fst kv := snd kv]> env) (environ w)
    (XSArgs.get_env_variables (args self)).

(** The script run on a parsed command line: [xs = XiangShan(args)] and
    [xs.run(args)]. *)
Definition main (w : World) (args0 : Namespace.t) : list effect * ending :=
  match __init__ w args0 with
  | Fail e => ([], Error e)
  | Done xs => run w xs args0
  end.
End XiangShan.


(** ** Notions used to state the further properties *)

(** The character [a] occurs in [s]. *)
Fixpoint has (a : ascii) (s : string) : bool :=
  match s with
  | EmptyString => false
  | String b s' => Ascii.eqb a b || has a s'
  end.

(** The continuation of [re_match]: the match is found. *)
Definition accept : string -> captures -> option captures :=
  fun _ caps => Some caps.

(** The parts of [numa_re]: from the [-] between the two groups, from
    [-C], and from [numactl]. *)
Definition numa_re_last : regex := (Lit "-" · Group (Plus digit) · Star Any)%re.

Definition numa_re_pin : regex :=
  (Lit "-C" · Plus (Ch " ") · Group (Plus digit) · numa_re_last)%re.

Definition numa_re_cmd : regex :=
  (Lit "numactl" · Plus (Ch " ") · Star Any · numa_re_pin)%re.

(** What [run_ci] and [run_ci_vcs] do after a failure: the commands
    [copies] that save the wave files, run when [wave_home] is not the
    default one. *)
Definition saved (w : World) (self : XiangShan.t) (copies : list string)
    : list effect :=
  if negb (String.eqb (XSArgs.default_wave_home (XiangShan.args self))
                      (XSArgs.wave_home (XiangShan.args self)))
  then map (fun cmd => Exec cmd (wait w cmd)) copies
  else [].

(** The copy commands of [run_ci]. *)
Definition emu_copies : list string :=
  [ "cp $NOOP_HOME/build/*.vcd $WAVE_HOME";
    "cp $NOOP_HOME/build/*.fst $WAVE_HOME";
    "cp $NOOP_HOME/build/emu $WAVE_HOME";
    "cp $NOOP_HOME/build/rtl/SimTop.v $WAVE_HOME";
    "cp $NOOP_HOME/build/*.db $WAVE_HOME" ].


(** ** Sample command lines and worlds *)

(** A command line with [--spike --trace --trace-fst --nemu /work/NEMU
    --wave-dump /work/waves ...], and the given [--diff], [--ci],
    [--build], workload, [--numa] and [--threads]. *)
Definition command_line_with (diff : option string) (ci : option string)
    (build : bool) (workload : string) (numa : bool) (threads : option Z)
    : Namespace.t := {|
  Namespace.workload := workload;
  Namespace.build := build;
  Namespace.generate := false;
  Namespace.vcs_gen := false;
  Namespace.vcs_build := false;
  Namespace.ci := ci;
  Namespace.ci_vcs := None;
  Namespace.clean := true;
  Namespace.timeout := Some 3600;
  Namespace.nemu := Some "/work/NEMU";
  Namespace.am := None;
  Namespace.dramsim3 := None;
  Namespace.rvtest := None;
  Namespace.wave_dump := Some "/work/waves";
  Namespace.enable_log := true;
  Namespace.num_cores := Some 2;
  Namespace.release := true;
  Namespace.spike := true;
  Namespace.with_dramsim3 := false;
  Namespace.threads := threads;
  Namespace.make_threads := Some 200;
  Namespace.trace := true;
  Namespace.trace_fst := true;
  Namespace.config := Some "MinimalConfig";
  Namespace.yaml_config := None;
  Namespace.emu_optimize := None;
  Namespace.xprop := false;
  Namespace.issue := None;
  Namespace.numa := numa;
  Namespace.diff := diff;
  Namespace.max_instr := Some 5000;
  Namespace.disable_fork := false;
  Namespace.no_diff := false;
  Namespace.ram_size := None;
  Namespace.gcpt_restore_bin := "";
  Namespace.no_db := false;
  Namespace.pgo := None;
  Namespace.pgo_max_cycle := Some 400000;
  Namespace.pgo_emu_args := Some "--no-diff";
  Namespace.llvm_profdata := None
|}.

(** The same with the default of [--diff]. *)
Definition command_line (ci : option string) (build : bool) (workload : string)
    (numa : bool) (threads : option Z) : Namespace.t :=
  command_line_with (Some "./ready-to-run/riscv64-nemu-interpreter-so")
    ci build workload numa threads.

(** A host where [$NEMU_HOME] is set and two checkpoints lie under the
    first checkpoint directory; the build of the emulator fails, the
    run of [mergelines] fails, the run of [coremark] times out and every
    other command succeeds. *)
Definition sample_world : World := {|
  environ := {[ "NEMU_HOME" := "/env/NEMU"; "PATH" := "/usr/bin" ]};
  realpath := fun path => path;
  script_dir := "/work/XiangShan/scripts";
  quote := fun s => s;
  randint := 1234;
  randbelow := fun n => (n - 1)%nat;
  walk := fun root =>
    if String.eqb root "/nfs/home/share/checkpoints_profiles/spec06_rv64gcb_o2_20m/take_cpt"
    then [ (root, ["mcf"], ["README"]);
           (root +:+ "/mcf", [], ["_100_0.5_.gz"; "notes.txt"; "_200_0.3_.zstd"]) ]
    else [];
  listdir := fun path =>
    if String.eqb path "/nfs/home/share/ci-workloads/nexus-am-workloads/tests/cputest"
    then Some ["add-riscv64-xs.bin"; "add-riscv64-xs.elf"; "bit-riscv64-xs.bin"]
    else None;
  observe := fun _ => [pinned_host];
  wait := fun cmd =>
    if String.prefix "make -C $NOOP_HOME emu" cmd then Exited 2
    else if str_in "mergelines" cmd then Exited 1
    else if str_in "coremark" cmd then TimeoutExpired
    else Exited 0;
  read := fun _ => Some "Core 0: HIT GOOD TRAP at pc = 0x80000000"
|}.

(** An object with every attribute empty, for the case where
    [__init__] raises. *)
Definition blank : XiangShan.t :=
  {| XiangShan.args :=
       {| XSArgs.noop_home := ""; XSArgs.nemu_home := ""; XSArgs.am_home := "";
          XSArgs.dramsim3_home := ""; XSArgs.rvtest_home := "";
          XSArgs.default_wave_home := ""; XSArgs.wave_home := "";
          XSArgs.enable_log := false; XSArgs.num_cores := None;
          XSArgs.threads := None; XSArgs.make_threads := None;
          XSArgs.with_dramsim3 := None; XSArgs.is_release := None;
          XSArgs.is_spike := None; XSArgs.trace := None; XSArgs.trace_fst := None;
          XSArgs.config := None; XSArgs.yaml_config := None;
          XSArgs.emu_optimize := None; XSArgs.xprop := None; XSArgs.issue := None;
          XSArgs.with_chiseldb := None; XSArgs.max_instr := None;
          XSArgs.ram_size := None; XSArgs.seed := None; XSArgs.numa := false;
          XSArgs.diff := None; XSArgs.fork := false; XSArgs.disable_diff := false;
          XSArgs.disable_db := false; XSArgs.gcpt_restore_bin := "";
          XSArgs.pgo := None; XSArgs.pgo_max_cycle := None;
          XSArgs.pgo_emu_args := None; XSArgs.llvm_profdata := None |};
     XiangShan.timeout := None |}.

(** The object [XiangShan(args)]. *)
Definition made (w : World) (args : Namespace.t) : XiangShan.t :=
  match XiangShan.__init__ w args with
  | Done xs => xs
  | Fail _ => blank
  end.

(** [XiangShan(args)] for a run of [a.bin] without pinning, and with. *)
Definition sample_xs : XiangShan.t :=
  made sample_world (command_line None false "a.bin" false (Some 8)).

Definition numa_xs : XiangShan.t :=
  made sample_world (command_line None false "a.bin" true (Some 8)).

(** The shell that runs the emulator of [xs] on [workload], pinned to
    the window [numa_info], as [psutil] shows it. *)
Definition emu_shell (xs : XiangShan.t) (workload : string)
    (numa_info : Z * Z * Z) : Proc :=
  mkproc ["/bin/sh"; "-c";
          XiangShan.emu_cmd xs workload (XiangShan.numa_args_of numa_info)]
    "sh".

(** 32 cores at rest, on which the emulator of another run holds cores
    0-7. *)
Definition shared_host : Host :=
  mkhost [emu_shell numa_xs "a.bin" (0, 0, 7)] 32 32 (repeat (tenths 0) 32)
    (tenths 0).

(** * Properties *)

(** ** Arithmetic and list helpers *)

Lemma elem_of_range (a b c : Z) : c ∈ range a b <-> a <= c < b.
Proof. unfold range. rewrite elem_of_seqZ. lia. Qed.

Lemma range_split (k i : Z) :
  0 <= i < k -> range 0 k = range 0 i ++ i :: range (i + 1) k.
Proof.
  intros Hi. unfold range.
  replace (k - 0) with (i + (1 + (k - (i + 1)))) by lia.
  rewrite seqZ_app by lia.
  rewrite (seqZ_cons (0 + i)) by lia.
  repeat f_equal; lia.
Qed.

(** A test on the indices below [k] fails everywhere or has a least
    index where it holds. *)
Lemma least_index (f : Z -> bool) (k : Z) :
  (forall i, 0 <= i < k -> f i = false)
  \/ exists i, 0 <= i < k /\ f i = true
               /\ forall j, 0 <= j < i -> f j = false.
Proof.
  destruct (Z.le_gt_cases 0 k) as [Hk | Hk]; [| left; intros; lia].
  revert k Hk.
  apply (natlike_ind (fun k =>
    (forall i, 0 <= i < k -> f i = false)
    \/ exists i, 0 <= i < k /\ f i = true
                 /\ forall j, 0 <= j < i -> f j = false)).
  - left. intros. lia.
  - intros k Hk [Hall | (i & Hi & Hfi & Hleast)].
    + destruct (f k) eqn:Hfk.
      * right. exists k. split; [lia |]. split; [done |].
        intros j Hj. apply Hall. lia.
      * left. intros i Hi.
        destruct (Z.eq_dec i k) as [-> | Hne]; [done | apply Hall; lia].
    + right. exists i. split; [lia |]. by split.
Qed.

(** ** What the matcher accepts *)

Lemma append_cons (a : ascii) (s t : string) :
  String a s +:+ t = String a (s +:+ t).
Proof. done. Qed.

Lemma append_assoc (s t u : string) : (s +:+ t) +:+ u = s +:+ t +:+ u.
Proof.
  induction s as [| a s IH]; [done |]. by rewrite !append_cons, IH.
Qed.

Lemma length_append (s t : string) :
  String.length (s +:+ t) = (String.length s + String.length t)%nat.
Proof.
  induction s as [| a s IH]; [done |]. rewrite append_cons. simpl. by rewrite IH.
Qed.

Lemma substring_append (s t : string) :
  String.substring 0 (String.length s) (s +:+ t) = s.
Proof.
  induction s as [| a s IH]; [by destruct t |].
  rewrite append_cons. simpl. by rewrite IH.
Qed.

Lemma taken_append (s t : string) : taken (s +:+ t) t = s.
Proof.
  unfold taken. rewrite length_append.
  replace (String.length s + String.length t - String.length t)%nat
    with (String.length s) by lia.
  apply substring_append.
Qed.

Lemma strip_append (t s : string) : strip t (t +:+ s) = Some s.
Proof.
  induction t as [| a t IH]; [by destruct s |].
  rewrite append_cons. simpl. by rewrite Ascii.eqb_refl.
Qed.

Lemma strip_some (t s s' : string) : strip t s = Some s' -> s = t +:+ s'.
Proof.
  revert s. induction t as [| a t IH]; intros s Hs.
  - destruct s; by injection Hs as <-.
  - destruct s as [| b s]; [done |]. simpl in Hs.
    destruct (Ascii.eqb_spec a b) as [<- | _]; [| done].
    rewrite append_cons. f_equal. by apply IH.
Qed.

Section Repetition.
Context {R : Type}.
Variables (c : cset) (k : string -> option R).

Lemma star_sound (s : string) (r : R) :
  star c k s = Some r ->
  exists s1 s2, s = s1 +:+ s2 /\ all_in c s1 = true /\ k s2 = Some r.
Proof.
  induction s as [| a s IH]; simpl; intros Hs.
  - by exists "", "".
  - destruct (mem c a) eqn:Ha; [| by exists "", (String a s)].
    destruct (star c k s) as [r' |] eqn:Hstar; [| by exists "", (String a s)].
    injection Hs as ->. destruct (IH eq_refl) as (s1 & s2 & -> & Hs1 & Hk).
    exists (String a s1), s2. repeat split; [| done]. simpl. by rewrite Ha.
Qed.

Lemma star_here (s : string) : is_Some (k s) -> is_Some (star c k s).
Proof.
  intros Hk. destruct s as [| a s]; simpl; [done |].
  destruct (mem c a); [| done]. by destruct (star c k s).
Qed.


Lemma plus_sound (s : string) (r : R) :
  plus c k s = Some r ->
  exists a s1 s2,
    s = String a s1 +:+ s2 /\ all_in c (String a s1) = true /\ k s2 = Some r.
Proof.
  destruct s as [| a s]; simpl; [done |].
  destruct (mem c a) eqn:Ha; [| done]. intros Hs.
  apply star_sound in Hs as (s1 & s2 & -> & Hs1 & Hk).
  exists a, s1, s2. repeat split; [| done]. simpl. by rewrite Ha.
Qed.

End Repetition.

(** A successful run splits the text into a part in the language of the
    pattern, with the groups it recorded, and a rest on which the
    continuation succeeds. *)
Lemma run_sound (r : regex) :
  forall k s caps res,
    run r k s caps = Some res ->
    exists s1 s2 caps1,
      s = s1 +:+ s2 /\ matches r s1 caps1 /\ k s2 (caps ++ caps1) = Some res.
Proof.
  induction r as [t | c | c | r IH | r1 IH1 r2 IH2]; intros k s caps res; simpl.
  - destruct (strip t s) as [s' |] eqn:Hs; [| done]. intros Hk.
    apply strip_some in Hs as ->. exists t, s', []. rewrite app_nil_r.
    repeat split; [constructor | done].
  - intros (s1 & s2 & -> & Hs1 & Hk)%star_sound.
    exists s1, s2, []. rewrite app_nil_r. repeat split; [by constructor | done].
  - intros (a & s1 & s2 & -> & Hs1 & Hk)%plus_sound.
    exists (String a s1), s2, []. rewrite app_nil_r.
    repeat split; [by constructor | done].
  - intros (s1 & s2 & caps1 & -> & Hm & Hk)%IH.
    rewrite taken_append, <- app_assoc in Hk.
    exists s1, s2, (caps1 ++ [s1]). repeat split; [by constructor | done].
  - intros (s1 & s' & caps1 & -> & Hm1 & Hk)%IH1.
    apply IH2 in Hk as (s2 & s3 & caps2 & -> & Hm2 & Hk).
    exists (s1 +:+ s2), s3, (caps1 ++ caps2).
    rewrite append_assoc, app_assoc. repeat split; [by constructor | done].
Qed.


(** ** Substrings *)

Lemma prefix_true (sub s : string) :
  String.prefix sub s = true <-> exists post, s = sub +:+ post.
Proof.
  revert s. induction sub as [| a sub IH]; intros s.
  - split; [by exists s | by destruct s].
  - destruct s as [| b s]; simpl.
    + split; [done | by intros (post & [=])].
    + destruct (ascii_dec a b) as [<- | Hne].
      * rewrite IH. split.
        -- intros (post & ->). by exists post.
        -- intros (post & [= ->]). by exists post.
      * split; [done |]. intros (post & [= <- _]). done.
Qed.

(** [str_in sub s] is Python's [sub in s]: [sub] occurs somewhere in [s]. *)
Lemma str_in_true (sub s : string) :
  str_in sub s = true <-> exists pre post, s = pre +:+ sub +:+ post.
Proof.
  induction s as [| a s IH].
  - change (str_in sub "") with (String.prefix sub "" || false).
    rewrite orb_true_iff, prefix_true. split.
    + intros [(post & ->) | [=]]. by exists "", post.
    + intros ([| b pre] & post & Hs); [| done]. left. by exists post.
  - change (str_in sub (String a s))
      with (String.prefix sub (String a s) || str_in sub s).
    rewrite orb_true_iff, prefix_true, IH. split.
    + intros [(post & Hs) | (pre & post & ->)].
      * by exists "", post.
      * by exists (String a pre), post.
    + intros ([| b pre] & post & Hs).
      * left. by exists post.
      * injection Hs as <- ->. right. by exists pre, post.
Qed.

(** ** The command lines [numa_re] recognises *)

Ltac invert_matches :=
  repeat match goal with
    | H : matches (Cat _ _) _ _ |- _ => inversion H; subst; clear H
    | H : matches (Group _) _ _ |- _ => inversion H; subst; clear H
    | H : matches (Lit _) _ _ |- _ => inversion H; subst; clear H
    | H : matches (Star _) _ _ |- _ => inversion H; subst; clear H
    | H : matches (Plus _) _ _ |- _ => inversion H; subst; clear H
    end.

Lemma numa_re_sound (s : string) (m : captures) :
  re_match numa_re s = Some m ->
  exists g1 g2, m = [g1; g2] /\ pinning s g1 g2.
Proof.
  unfold re_match. intros (s1 & s2 & caps & -> & Hm & Hk)%run_sound.
  injection Hk as <-. unfold numa_re in Hm. invert_matches.
  match goal with
  | |- exists g1 g2, _ = [g1; g2] /\ pinning (?l +:+ _) _ _ =>
      match l with
      | ?pre +:+ _ +:+ ?sp1 +:+ ?mid +:+ _ +:+ ?sp2 +:+ ?g1 +:+ _ +:+ ?g2 +:+ ?tl =>
          exists g1, g2; split; [done |];
          exists pre, sp1, mid, sp2, (tl +:+ s2)
      end
  end.
  repeat split; try done.
  by rewrite !append_assoc.
Qed.


(** ** Decimal text and the greedy matcher *)

Lemma int_acc_uint (d : Decimal.uint) (acc : positive) :
  int_acc (Z.pos acc) (NilEmpty.string_of_uint d) = Z.pos (Pos.of_uint_acc d acc).
Proof.
  revert acc. induction d; intros acc; simpl; [done | ..];
    rewrite <- IHd; f_equal; unfold digit_val;
    match goal with
    | |- context [Z.of_nat (nat_of_ascii ?a)] =>
        let c := eval vm_compute in (Z.of_nat (nat_of_ascii a)) in
        change (Z.of_nat (nat_of_ascii a)) with c
    end; lia.
Qed.

Lemma int_acc_uint0 (d : Decimal.uint) :
  int_acc 0 (NilEmpty.string_of_uint d) = Z.of_N (Pos.of_uint d).
Proof.
  induction d; simpl; try done; apply int_acc_uint.
Qed.

Lemma int_acc_str (z : Z) : 0 <= z -> int_acc 0 (str z) = z.
Proof.
  intros Hz. destruct z as [| p | p]; [done | | lia].
  unfold str. simpl.
  pose proof (Unsigned.to_uint_nonnil p) as Hnil.
  unfold NilZero.string_of_uint.
  destruct (Pos.to_uint p) eqn:Hp; [done | ..];
    rewrite <- Hp, int_acc_uint0, Unsigned.of_to; done.
Qed.

Lemma digits_uint (d : Decimal.uint) : all_in digit (NilEmpty.string_of_uint d) = true.
Proof. induction d; simpl; done. Qed.

Lemma str_digits (z : Z) : 0 <= z -> str z <> "" /\ all_in digit (str z) = true.
Proof.
  intros Hz. destruct z as [| p | p]; [done | | lia].
  unfold str. simpl.
  pose proof (Unsigned.to_uint_nonnil p) as Hnil.
  unfold NilZero.string_of_uint.
  destruct (Pos.to_uint p) eqn:Hp; [done | ..]; rewrite <- Hp;
    (split; [rewrite Hp; done | apply digits_uint]).
Qed.

Lemma append_nil_r (s : string) : s +:+ "" = s.
Proof. induction s as [| a s IH]; [done |]. by rewrite append_cons, IH. Qed.

Lemma append_eq_append (s1 s2 u v : string) :
  s1 +:+ s2 = u +:+ v ->
  (exists w, s1 = u +:+ w /\ v = w +:+ s2)
  \/ (exists w, u = s1 +:+ w /\ s2 = w +:+ v).
Proof.
  revert u. induction s1 as [| a s1 IH]; intros u Heq.
  - right. by exists u.
  - destruct u as [| b u].
    + left. by exists (String a s1).
    + rewrite !append_cons in Heq. injection Heq as <- Heq.
      destruct (IH u Heq) as [(w & -> & ->) | (w & -> & ->)].
      * left. by exists w.
      * right. by exists w.
Qed.

Lemma has_append (a : ascii) (s t : string) :
  has a (s +:+ t) = has a s || has a t.
Proof.
  induction s as [| b s IH]; [done |].
  rewrite append_cons. simpl. by rewrite IH, orb_assoc.
Qed.

Lemma has_all_in (c : cset) (a : ascii) (s : string) :
  all_in c s = true -> mem c a = false -> has a s = false.
Proof.
  intros Hs Ha. induction s as [| b s IH]; [done |].
  simpl in *. apply andb_true_iff in Hs as [Hb Hs]. rewrite IH by done.
  destruct (Ascii.eqb_spec a b) as [-> | _]; [congruence | done].
Qed.

Lemma all_in_append (c : cset) (s t : string) :
  all_in c (s +:+ t) = all_in c s && all_in c t.
Proof.
  induction s as [| b s IH]; [done |].
  rewrite append_cons. simpl. by rewrite IH, andb_assoc.
Qed.

Lemma strip_none (t s : string) : String.prefix t s = false -> strip t s = None.
Proof.
  revert s. induction t as [| a t IH]; intros s; [by destruct s |].
  destruct s as [| b s]; [done |]. simpl.
  destruct (ascii_dec a b) as [<- | Hne].
  - rewrite Ascii.eqb_refl. apply IH.
  - intros _. by destruct (Ascii.eqb_spec a b).
Qed.

Lemma str_in_suffix (sub u v : string) :
  str_in sub (u +:+ v) = false -> str_in sub v = false.
Proof.
  rewrite <- !not_true_iff_false, !str_in_true.
  intros Hno (pre & post & ->). apply Hno. exists (u +:+ pre), post.
  by rewrite append_assoc.
Qed.

Lemma str_in_prefix_false (sub u v : string) :
  str_in sub (u +:+ v) = false -> String.prefix sub v = false.
Proof.
  intros Hno%str_in_suffix. destruct v; simpl in Hno; by apply orb_false_iff in Hno as [? _].
Qed.

Lemma str_in_skip (a : ascii) (sub s t : string) :
  has a s = false -> str_in (String a sub) (s +:+ t) = str_in (String a sub) t.
Proof.
  induction s as [| b s IH]; [done |]. intros Hs. simpl in Hs.
  apply orb_false_iff in Hs as [Hab Hs]. rewrite append_cons.
  change (str_in (String a sub) (String b (s +:+ t)))
    with (String.prefix (String a sub) (String b (s +:+ t))
          || str_in (String a sub) (s +:+ t)).
  rewrite IH by done. simpl.
  destruct (ascii_dec a b) as [-> | _]; [by rewrite Ascii.eqb_refl in Hab | done].
Qed.

Section Greedy.
Context {R : Type}.
Variables (c : cset) (k : string -> option R).

Lemma star_stop (s : string) : starts_outside c s -> star c k s = k s.
Proof. destruct s as [| a s]; [done |]. simpl. by intros ->. Qed.

Lemma star_greedy (s1 s2 : string) (r : R) :
  all_in c s1 = true -> starts_outside c s2 -> k s2 = Some r ->
  star c k (s1 +:+ s2) = Some r.
Proof.
  intros Hs1 Hs2 Hk. induction s1 as [| a s1 IH].
  - change ("" +:+ s2) with s2. by rewrite star_stop.
  - simpl in Hs1. apply andb_true_iff in Hs1 as [Ha Hs1].
    rewrite append_cons. simpl. by rewrite Ha, IH.
Qed.

Lemma star_later_fail (s : string) :
  (forall u v, s = u +:+ v -> u <> "" -> k v = None) -> star c k s = k s.
Proof.
  induction s as [| a s IH]; intros Hlater; [done |]. simpl.
  destruct (mem c a); [| done].
  rewrite IH.
  - by rewrite (Hlater (String a "") s).
  - intros u v -> Hu. apply (Hlater (String a u) v); done.
Qed.

Lemma star_last (s1 s2 : string) (r : R) :
  all_in c s1 = true -> k s2 = Some r ->
  (forall u v, s2 = u +:+ v -> u <> "" -> k v = None) ->
  star c k (s1 +:+ s2) = Some r.
Proof.
  intros Hs1 Hk Hlater. induction s1 as [| a s1 IH].
  - change ("" +:+ s2) with s2. by rewrite star_later_fail.
  - simpl in Hs1. apply andb_true_iff in Hs1 as [Ha Hs1].
    rewrite append_cons. simpl. by rewrite Ha, IH.
Qed.

Lemma star_const (r : R) (s : string) :
  (forall s', k s' = Some r) -> star c k s = Some r.
Proof.
  intros Hk. induction s as [| a s IH]; simpl; [done |].
  destruct (mem c a); [by rewrite IH | done].
Qed.
End Greedy.

Lemma run_lit (t s : string) k caps : run (Lit t) k (t +:+ s) caps = k s caps.
Proof. simpl. by rewrite strip_append. Qed.

Lemma run_lit_none (t s : string) r k caps :
  String.prefix t s = false -> run (Cat (Lit t) r) k s caps = None.
Proof. intros Hp. simpl. by rewrite strip_none. Qed.

Lemma run_plus_greedy (c : cset) k (s1 s2 : string) caps r :
  s1 <> "" -> all_in c s1 = true -> starts_outside c s2 ->
  k s2 caps = Some r ->
  run (Plus c) k (s1 +:+ s2) caps = Some r.
Proof.
  intros Hne Hs1 Hs2 Hk. destruct s1 as [| a s1]; [done |].
  simpl in Hs1. apply andb_true_iff in Hs1 as [Ha Hs1].
  rewrite append_cons. simpl. rewrite Ha. by apply star_greedy.
Qed.

Lemma run_group_greedy (c : cset) k (s1 s2 : string) caps r :
  s1 <> "" -> all_in c s1 = true -> starts_outside c s2 ->
  k s2 (caps ++ [s1]) = Some r ->
  run (Group (Plus c)) k (s1 +:+ s2) caps = Some r.
Proof.
  intros Hne Hs1 Hs2 Hk.
  change (run (Group (Plus c)) k (s1 +:+ s2) caps)
    with (run (Plus c) (fun s' caps' => k s' (caps' ++ [taken (s1 +:+ s2) s'])) (s1 +:+ s2) caps).
  apply run_plus_greedy; try done. by rewrite taken_append.
Qed.

Lemma run_star_accept (c : cset) (s : string) caps :
  run (Star c) accept s caps = Some caps.
Proof. simpl. by apply star_const. Qed.

Lemma run_star_last (c : cset) k (s1 s2 : string) caps r :
  all_in c s1 = true -> k s2 caps = Some r ->
  (forall u v, s2 = u +:+ v -> u <> "" -> k v caps = None) ->
  run (Star c) k (s1 +:+ s2) caps = Some r.
Proof. intros Hs1 Hk Hlater. simpl. by apply star_last. Qed.

Lemma no_dash_C_no_match (s : string) :
  str_in "-C" s = false -> re_match numa_re s = None.
Proof.
  intros Hno. destruct (re_match numa_re s) as [m |] eqn:Hm; [| done].
  apply numa_re_sound in Hm as (g1 & g2 & _ & pre & sp1 & mid & sp2 & post & -> & _).
  apply not_true_iff_false in Hno. destruct Hno. apply str_in_true.
  exists (pre +:+ "numactl" +:+ sp1 +:+ mid), (sp2 +:+ g1 +:+ "-" +:+ g2 +:+ post).
  by rewrite !append_assoc.
Qed.

Lemma digit_not (a b : ascii) :
  mem digit a = true -> mem digit b = false -> a <> b.
Proof. intros Ha Hb ->. congruence. Qed.

Lemma prefix_second (a1 a2 b1 b2 : ascii) (s : string) :
  a2 <> b2 ->
  String.prefix (String a1 (String a2 "")) (String b1 (String b2 s)) = false.
Proof.
  intros Hne. simpl. destruct (ascii_dec a1 b1); [| done].
  by destruct (ascii_dec a2 b2).
Qed.

Lemma prefix_first (a b : ascii) (t s : string) :
  a <> b -> String.prefix (String a t) (String b s) = false.
Proof. intros Hne. simpl. by destruct (ascii_dec a b). Qed.

Lemma has_head (a b : ascii) (s : string) : has a (String b s) = false -> a <> b.
Proof.
  simpl. intros [Hab _]%orb_false_iff ->. by rewrite Ascii.eqb_refl in Hab.
Qed.

Lemma all_in_head (c : cset) (a : ascii) (s : string) :
  all_in c (String a s) = true -> mem c a = true.
Proof. simpl. by intros [? _]%andb_true_iff. Qed.

Section ReadBack.
Variables (pre N A B rest : string).
Hypothesis Hpre : all_in Any pre = true.
Hypothesis HN : all_in digit N = true.
Hypothesis HA0 : A <> "".
Hypothesis HA : all_in digit A = true.
Hypothesis HB0 : B <> "".
Hypothesis HB : all_in digit B = true.
Hypothesis Hrest : starts_outside digit rest.
Hypothesis HnoC : str_in "-C" rest = false.

Lemma digits_any (s : string) : all_in digit s = true -> all_in Any s = true.
Proof.
  induction s as [| a s IH]; [done |]. simpl.
  intros [Ha Hs]%andb_true_iff. rewrite IH by done.
  destruct (Ascii.eqb_spec a newline) as [-> | _]; [done | done].
Qed.

Lemma starts_digit (s t : string) (c : cset) :
  s <> "" -> all_in digit s = true ->
  (forall a, mem digit a = true -> mem c a = false) ->
  starts_outside c (s +:+ t).
Proof.
  intros Hne Hs Hc. destruct s as [| a s]; [done |].
  simpl in Hs. apply andb_true_iff in Hs as [Ha _]. by apply Hc.
Qed.

Lemma read_R3 :
  run numa_re_pin accept ("-C" +:+ " " +:+ A +:+ "-" +:+ B +:+ rest) [] = Some [A; B].
Proof.
  unfold numa_re_pin, numa_re_last.
  change (run (Cat ?r1 ?r2) ?k ?s ?caps) with (run r1 (run r2 k) s caps).
  rewrite run_lit.
  change (run (Cat ?r1 ?r2) ?k ?s ?caps) with (run r1 (run r2 k) s caps).
  apply run_plus_greedy; [done | done | |].
  { apply starts_digit; try done. intros a Ha. simpl.
    destruct (Ascii.eqb_spec a " ") as [-> | _]; [done | done]. }
  change (run (Cat ?r1 ?r2) ?k ?s ?caps) with (run r1 (run r2 k) s caps).
  apply run_group_greedy; [done | done | done |].
  change (run (Cat ?r1 ?r2) ?k ?s ?caps) with (run r1 (run r2 k) s caps).
  rewrite run_lit.
  change (run (Cat ?r1 ?r2) ?k ?s ?caps) with (run r1 (run r2 k) s caps).
  apply run_group_greedy; [done | done | done |].
  apply run_star_accept.
Qed.

Lemma no_dash_C_tail : str_in "-C" ("C" +:+ " " +:+ A +:+ "-" +:+ B +:+ rest) = false.
Proof.
  replace ("C" +:+ " " +:+ A +:+ "-" +:+ B +:+ rest)
    with (("C " +:+ A) +:+ "-" +:+ B +:+ rest) by (rewrite append_assoc; reflexivity).
  rewrite str_in_skip.
  2:{ rewrite has_append. by rewrite (has_all_in digit "-" A). }
  destruct B as [| b B']; [done |].
  pose proof (all_in_head _ _ _ HB) as Hb.
  change (str_in "-C" ("-" +:+ String b B' +:+ rest))
    with (String.prefix "-C" (String "-" (String b (B' +:+ rest)))
          || str_in "-C" (String b B' +:+ rest)).
  rewrite str_in_skip by by apply (has_all_in digit).
  rewrite HnoC, orb_false_r. apply prefix_second.
  apply not_eq_sym. by apply digit_not.
Qed.

Lemma later_R3 (u v : string) :
  "-C" +:+ " " +:+ A +:+ "-" +:+ B +:+ rest = u +:+ v -> u <> "" ->
  run numa_re_pin accept v [] = None.
Proof.
  intros Heq Hu. destruct u as [| b u]; [done |].
  assert ("C" +:+ " " +:+ A +:+ "-" +:+ B +:+ rest = u +:+ v) as Hx
    by (by injection Heq).
  pose proof no_dash_C_tail as Hno. rewrite Hx in Hno. apply str_in_prefix_false in Hno.
  by apply run_lit_none.
Qed.

Lemma no_dash_C_R1 (v : string) :
  str_in "-C" v = false -> run numa_re_cmd accept v [] = None.
Proof.
  intros Hno%no_dash_C_no_match.
  destruct (run numa_re_cmd accept v []) as [res |] eqn:Hrun; [| done].
  assert (is_Some (re_match numa_re v)) as [m Hm]; [| congruence].
  unfold re_match.
  change (run numa_re accept v [])
    with (star Any (fun s' => run numa_re_cmd accept s' []) v).
  apply star_here. by exists res.
Qed.

Lemma read_R1 :
  run numa_re_cmd accept ("numactl" +:+ " " +:+ "-m " +:+ N +:+ " "
                 +:+ "-C" +:+ " " +:+ A +:+ "-" +:+ B +:+ rest) []
  = Some [A; B].
Proof.
  unfold numa_re_cmd.
  change (run (Cat ?r1 ?r2) ?k ?s ?caps) with (run r1 (run r2 k) s caps).
  rewrite run_lit.
  change (run (Cat ?r1 ?r2) ?k ?s ?caps) with (run r1 (run r2 k) s caps).
  apply run_plus_greedy; [done | done | done |].
  change (run (Cat ?r1 ?r2) ?k ?s ?caps) with (run r1 (run r2 k) s caps).
  replace ("-m " +:+ N +:+ " " +:+ "-C" +:+ " " +:+ A +:+ "-" +:+ B +:+ rest)
    with (("-m " +:+ N +:+ " ")
          +:+ "-C" +:+ " " +:+ A +:+ "-" +:+ B +:+ rest)
    by (rewrite !append_assoc; reflexivity).
  apply run_star_last.
  - by rewrite !all_in_append, (digits_any N HN).
  - apply read_R3.
  - apply later_R3.
Qed.

Lemma later_R1 (u v : string) :
  "numactl" +:+ " " +:+ "-m " +:+ N +:+ " "
    +:+ "-C" +:+ " " +:+ A +:+ "-" +:+ B +:+ rest = u +:+ v ->
  u <> "" -> run numa_re_cmd accept v [] = None.
Proof.
  intros Heq Hu. destruct u as [| b u]; [done |].
  set (M := "umactl" +:+ " " +:+ "-m " +:+ N +:+ " "
            +:+ "-C" +:+ " " +:+ A +:+ "-" +:+ B).
  assert (has "n" M = false) as HM.
  { unfold M. rewrite !has_append.
    by rewrite (has_all_in digit "n" N), (has_all_in digit "n" A),
      (has_all_in digit "n" B). }
  assert (M +:+ rest = u +:+ v) as Heq'.
  { unfold M. rewrite !append_assoc. by injection Heq. }
  apply append_eq_append in Heq' as [(w & HMw & ->) | (w & _ & Hrest')].
  - destruct w as [| c w].
    + apply no_dash_C_R1. done.
    + rewrite HMw, has_append in HM. apply orb_false_iff in HM as [_ HM].
      apply has_head in HM.
      apply run_lit_none. rewrite append_cons. by apply prefix_first.
  - apply no_dash_C_R1. rewrite Hrest' in HnoC. by apply str_in_suffix in HnoC.
Qed.

Lemma read_back :
  re_match numa_re (pre +:+ "numactl -m " +:+ N +:+ " -C " +:+ A +:+ "-"
                    +:+ B +:+ rest)
  = Some [A; B].
Proof.
  unfold re_match.
  change (run numa_re ?k ?s ?caps) with (run (Star Any) (run numa_re_cmd k) s caps).
  change ("numactl -m " +:+ N +:+ " -C " +:+ A +:+ "-" +:+ B +:+ rest)
    with ("numactl" +:+ " " +:+ "-m " +:+ N +:+ " -C " +:+ A +:+ "-" +:+ B +:+ rest).
  replace (" -C " +:+ A +:+ "-" +:+ B +:+ rest)
    with (" " +:+ "-C" +:+ " " +:+ A +:+ "-" +:+ B +:+ rest) by done.
  apply run_star_last; [done | apply read_R1 | apply later_R1].
Qed.
End ReadBack.

(** ** [int] and the number a digit string writes *)

Lemma int_ok (s : string) :
  (String.length s <= int_max_str_digits)%nat -> int s = Ok (int_acc 0 s).
Proof.
  intros Hlen. unfold int.
  by destruct (Nat.ltb_spec int_max_str_digits (String.length s)); [lia |].
Qed.

Lemma int_raise (s : string) :
  (int_max_str_digits < String.length s)%nat -> int s = Raise ValueError.
Proof.
  intros Hlen. unfold int.
  by destruct (Nat.ltb_spec int_max_str_digits (String.length s)); [| lia].
Qed.



Lemma writes_int_acc (g : string) (z : Z) : writes g z -> int_acc 0 g = z.
Proof.
  intros (u & Hu%NilEmpty.sus & ->). rewrite <- Hu. apply int_acc_uint0.
Qed.

Lemma digits_write (g : string) :
  all_in digit g = true -> writes g (int_acc 0 g).
Proof.
  intros Hg.
  assert (exists u, NilEmpty.uint_of_string g = Some u) as [u Hu].
  { induction g as [| a g IH]; [by exists Decimal.Nil |].
    simpl in Hg. apply andb_true_iff in Hg as [Ha Hg].
    destruct (IH Hg) as [u Hu]. simpl. rewrite Hu.
    destruct a as [[|] [|] [|] [|] [|] [|] [|] [|]]; try discriminate Ha;
      simpl; eauto. }
  exists u. split; [done |]. apply writes_int_acc. by exists u.
Qed.

Lemma writes_str (z : Z) : 0 <= z -> writes (str z) z.
Proof.
  intros Hz. pose proof (digits_write (str z)) as Hw.
  rewrite int_acc_str in Hw by done. apply Hw. by apply str_digits.
Qed.

(** ** The split a greedy repetition settles on *)


Section Longest.
Context {R : Type}.
Variables (c : cset) (k : string -> option R).


End Longest.


(** ** What a successful run of each part of [numa_re] has read *)





(** ** The pinning that [numa_re] reads *)









(** ** The scan of the process table *)




(** An exception that the loop does not catch ends the scan. *)
Lemma scan_procs_uncaught (procs : list Proc) (p : Proc) (e : exn)
    (acc d : list Z) :
  p ∈ procs -> pinned_cores p = Raise e -> caught e = false ->
  scan_procs procs acc <> Ok d.
Proof.
  intros Hp Hraise Huncaught. revert acc.
  induction procs as [| q rest IH]; intros acc; [by apply elem_of_nil in Hp |].
  apply elem_of_cons in Hp as [<- | Hp]; simpl.
  - by rewrite Hraise, Huncaught.
  - destruct (pinned_cores q) as [cores | e']; [by apply IH |].
    destruct (caught e'); [by apply IH | done].
Qed.


(** ** The two tests of the loop body *)

Lemma reserved_true (d : list Z) (n i : Z) :
  reserved d n i = true <-> exists c, c ∈ d /\ i * n <= c < i * n + n.
Proof.
  unfold reserved. rewrite bool_decide_eq_true. split.
  - intros Hne. apply set_choose_L in Hne as [c Hc].
    apply elem_of_intersection in Hc as [Hd Hr].
    apply elem_of_list_to_set in Hd, Hr. apply elem_of_range in Hr. eauto.
  - intros (c & Hd & Hr) Hempty.
    assert (c ∈ (∅ : gset Z)) as Hc; [| set_solver].
    rewrite <- Hempty. apply elem_of_intersection.
    split; apply elem_of_list_to_set; [done | by apply elem_of_range].
Qed.

Lemma reserved_false (d : list Z) (n i : Z) :
  reserved d n i = false <-> forall c, i * n <= c < i * n + n -> c ∉ d.
Proof.
  rewrite <- not_true_iff_false, reserved_true. split.
  - intros Hno c Hc Hd. apply Hno. eauto.
  - intros Hall (c & Hd & Hc). by apply (Hall c).
Qed.

Lemma over90_true (w : list float) :
  existsb (Bool.eqb true) (map (fun x => float_gt_int x 90) w) = true
  <-> exists x, x ∈ w /\ float_gt_int x 90 = true.
Proof.
  rewrite existsb_exists. split.
  - intros (b & Hin & Hb). apply in_map_iff in Hin as (x & Hx & Hin).
    destruct b; [| discriminate]. exists x. split; [| done].
    by apply list_elem_of_In.
  - intros (x & Hin & Hx). exists true. split; [| done].
    apply in_map_iff. exists x. split; [done |]. by apply list_elem_of_In.
Qed.

Lemma idle_true (n : Z) (w : list float) :
  idle n w = true
  <-> float_lt_int (sum w) (30 * n) = true
      /\ forall x, x ∈ w -> float_gt_int x 90 = false.
Proof.
  unfold idle. rewrite andb_true_iff, negb_true_iff.
  rewrite <- not_true_iff_false, over90_true. split.
  - intros [Hs Hno]. split; [done |]. intros x Hin.
    apply not_true_iff_false. intros Hx. apply Hno. eauto.
  - intros [Hs Hall]. split; [done |]. intros (x & Hin & Hx).
    by rewrite (Hall x) in Hx.
Qed.

(** Window [i] is accepted exactly when none of its cores is reserved,
    its summed usage is below [30 * n] and none of its cores is above 90. *)
Lemma accepted_true (n : Z) (d : list Z) (usage : list float) (i : Z) :
  accepted n d usage i = true
  <-> (forall c, i * n <= c < i * n + n -> c ∉ d)
      /\ float_lt_int (sum (slice usage (i * n) (i * n + n))) (30 * n) = true
      /\ (forall x, x ∈ slice usage (i * n) (i * n + n) ->
             float_gt_int x 90 = false).
Proof.
  unfold accepted. rewrite andb_true_iff, negb_true_iff.
  rewrite reserved_false, idle_true. tauto.
Qed.




(** ** The [for] loop over the windows *)

Section Windows.
Variables (n N : Z) (d : list Z) (usage : list float).

Lemma scan_windows_none (todo : list Z) :
  (forall j, j ∈ todo -> accepted n d usage j = false) ->
  scan_windows n N d usage todo = Ok None.
Proof.
  induction todo as [| i rest IH]; intros Hall; [done |].
  assert (accepted n d usage i = false) as Hi by (apply Hall; left).
  simpl. unfold accepted in Hi.
  destruct (reserved d n i); simpl in Hi.
  - apply IH. intros j Hj. apply Hall. by right.
  - rewrite Hi. apply IH. intros j Hj. apply Hall. by right.
Qed.

Lemma scan_windows_first (before after : list Z) (i : Z) :
  (forall j, j ∈ before -> accepted n d usage j = false) ->
  accepted n d usage i = true ->
  scan_windows n N d usage (before ++ i :: after)
  = (t <- numa_info n N i ;; Ok (Some t)).
Proof.
  induction before as [| j rest IH]; intros Hall Hi.
  - simpl. unfold accepted in Hi. apply andb_true_iff in Hi as [Hr Hid].
    apply negb_true_iff in Hr. by rewrite Hr, Hid.
  - assert (accepted n d usage j = false) as Hj by (apply Hall; left).
    simpl. unfold accepted in Hj.
    destruct (reserved d n j); simpl in Hj.
    + apply IH; [| done]. intros k Hk. apply Hall. by right.
    + rewrite Hj. apply IH; [| done]. intros k Hk. apply Hall. by right.
Qed.

End Windows.

(** ** The returned tuple *)

Lemma numa_info_ok (n N i : Z) (t : Z * Z * Z) :
  numa_info n N i = Ok t
  <-> N <> 0 /\ N / 2 <> 0
      /\ t = ((i * n) mod N / (N / 2), i * n, i * n + n - 1).
Proof.
  unfold numa_info, pymod, floordiv.
  destruct (Z.eqb_spec N 0) as [HN | HN]; simpl.
  { split; [discriminate | tauto]. }
  destruct (Z.eqb_spec (N / 2) 0) as [Hh | Hh]; simpl.
  { split; [discriminate | tauto]. }
  split.
  - intros [= <-]. done.
  - intros (_ & _ & ->). done.
Qed.

Lemma numa_info_count (n i : Z) (count : nat) :
  (2 <= count)%nat ->
  numa_info n (Z.of_nat count) i
  = Ok ((i * n) mod Z.of_nat count / (Z.of_nat count / 2), i * n, i * n + n - 1).
Proof.
  intros Hc. apply numa_info_ok. repeat split; [lia | ].
  assert (1 <= Z.of_nat count / 2); [| lia].
  apply Z.div_le_lower_bound; lia.
Qed.

(** ** One turn of the loop *)

Section Poll.
Variables (n : Z) (h : Host) (d : list Z) (count : nat).
Hypothesis Hscan : scan_procs (process_iter h) [] = Ok d.
Hypothesis Hcount : cpu_count h false = Some count.
Hypothesis Hn : n <> 0.

Lemma poll_windows :
  poll n h
  = scan_windows n (Z.of_nat count) d (cpu_percent h)
      (range 0 (Z.of_nat count / n)).
Proof.
  unfold poll. rewrite Hscan. simpl. rewrite Hcount.
  unfold floordiv. by destruct (Z.eqb_spec n 0).
Qed.

Lemma poll_none :
  (forall i, 0 <= i < Z.of_nat count / n ->
             accepted n d (cpu_percent h) i = false) ->
  poll n h = Ok None.
Proof.
  intros Hall. rewrite poll_windows. apply scan_windows_none.
  intros j Hj. apply Hall. by apply elem_of_range in Hj.
Qed.

Lemma poll_first (i : Z) :
  0 <= i < Z.of_nat count / n ->
  (forall j, 0 <= j < i -> accepted n d (cpu_percent h) j = false) ->
  accepted n d (cpu_percent h) i = true ->
  poll n h = (t <- numa_info n (Z.of_nat count) i ;; Ok (Some t)).
Proof.
  intros Hi Hbefore Hacc. rewrite poll_windows.
  rewrite (range_split _ i) by done.
  apply scan_windows_first; [| done].
  intros j Hj. apply Hbefore. by apply elem_of_range in Hj.
Qed.

(** What a turn of the loop does, by cases on the first accepted
    window. *)
Lemma poll_cases :
  (poll n h = Ok None
   /\ forall i, 0 <= i < Z.of_nat count / n ->
                accepted n d (cpu_percent h) i = false)
  \/ exists i,
       0 <= i < Z.of_nat count / n
       /\ (forall j, 0 <= j < i -> accepted n d (cpu_percent h) j = false)
       /\ accepted n d (cpu_percent h) i = true
       /\ poll n h = (t <- numa_info n (Z.of_nat count) i ;; Ok (Some t)).
Proof.
  destruct (least_index (accepted n d (cpu_percent h)) (Z.of_nat count / n))
    as [Hall | (i & Hi & Hacc & Hleast)].
  - left. split; [by apply poll_none | done].
  - right. exists i. repeat split; try done; try lia. by apply poll_first.
Qed.
End Poll.

(** On a host with at least two cores, a turn returns the tuple of its
    least accepted window. *)
Lemma poll_first_accepted (n : Z) (h : Host) (d : list Z) (count : nat) (i : Z) :
  scan_procs (process_iter h) [] = Ok d ->
  cpu_count h false = Some count ->
  (2 <= count)%nat ->
  0 <= i < Z.of_nat count / n ->
  (forall j, 0 <= j < i -> accepted n d (cpu_percent h) j = false) ->
  accepted n d (cpu_percent h) i = true ->
  poll n h
  = Ok (Some ((i * n) mod Z.of_nat count / (Z.of_nat count / 2),
              i * n, i * n + n - 1)).
Proof.
  intros Hd Hc Htwo Hi Hleast Hacc.
  assert (n <> 0) as Hn by (intros ->; rewrite Z.div_0_r in Hi; lia).
  rewrite (poll_first n h d count Hd Hc Hn i) by done.
  by rewrite numa_info_count.
Qed.

Lemma poll_ok_inv (n : Z) (h : Host) (r : option (Z * Z * Z)) :
  poll n h = Ok r ->
  exists d count,
    scan_procs (process_iter h) [] = Ok d
    /\ cpu_count h false = Some count
    /\ n <> 0.
Proof.
  unfold poll. destruct (scan_procs (process_iter h) []) as [d | e]; [| done].
  simpl. destruct (cpu_count h false) as [count |]; [| done].
  unfold floordiv. destruct (Z.eqb_spec n 0); [done |]. eauto.
Qed.

(** A turn that returns, returns the tuple of the least accepted window. *)
Lemma poll_returned (n : Z) (h : Host) (t : Z * Z * Z) :
  poll n h = Ok (Some t) ->
  exists d count i,
    scan_procs (process_iter h) [] = Ok d
    /\ cpu_count h false = Some count
    /\ 0 <= i < Z.of_nat count / n
    /\ (forall j, 0 <= j < i -> accepted n d (cpu_percent h) j = false)
    /\ accepted n d (cpu_percent h) i = true
    /\ numa_info n (Z.of_nat count) i = Ok t.
Proof.
  intros Hp. destruct (poll_ok_inv _ _ _ Hp) as (d & count & Hd & Hc & Hn).
  exists d, count.
  destruct (poll_cases n h d count Hd Hc Hn)
    as [[Hnone _] | (i & Hi & Hleast & Hacc & Hfirst)]; [congruence |].
  exists i. repeat split; try done; try lia.
  rewrite Hfirst in Hp.
  destruct (numa_info n (Z.of_nat count) i); simpl in Hp; congruence.
Qed.

(** Windows exist only for a positive [n] that fits the core count. *)
Lemma window_bounds (n N i : Z) :
  0 <= N -> 0 <= i < N / n -> 0 < n /\ 0 <= i * n /\ i * n + n <= N.
Proof.
  intros HN Hi.
  assert (0 < n) as Hn.
  { destruct (Z.lt_trichotomy n 0) as [Hneg | [-> | Hpos]]; [| | done].
    - pose proof (Z.div_mod N n ltac:(lia)).
      pose proof (Z.mod_neg_bound N n Hneg). nia.
    - rewrite Z.div_0_r in Hi. lia. }
  split; [done |].
  pose proof (Z.mul_div_le N n Hn). nia.
Qed.

(** ** The polling loop *)

Lemma get_free_cores_retry (n : Z) (h : Host) (later : list Host) :
  poll n h = Ok None ->
  get_free_cores n (h :: later)
  = (Print n (cpu_percent h) :: Sleep (uniform 1 60 (random h))
       :: (get_free_cores n later).1,
     (get_free_cores n later).2).
Proof. intros Hp. simpl. rewrite Hp. by destruct (get_free_cores n later). Qed.

(** A call that returns does so in the turn that follows its last sleep:
    after [k] turns that found nothing, each printing and sleeping once. *)
Lemma get_free_cores_returned (n : Z) (hosts : list Host) (events : list event)
    (t : Z * Z * Z) :
  get_free_cores n hosts = (events, Returned t) ->
  exists k h,
    hosts !! k = Some h
    /\ poll n h = Ok (Some t)
    /\ length events = (2 * k)%nat
    /\ forall j h', (j < k)%nat -> hosts !! j = Some h' -> poll n h' = Ok None.
Proof.
  revert events. induction hosts as [| h later IH]; intros events Hg; [done |].
  simpl in Hg. destruct (poll n h) as [[t' |] | e] eqn:Hp.
  - injection Hg as <- <-. exists 0%nat, h. repeat split; [done |].
    intros j h' Hj. lia.
  - destruct (get_free_cores n later) as [evs out] eqn:Hl.
    injection Hg as <- ->.
    destruct (IH evs eq_refl) as (k & h0 & Hk & Hp0 & Hlen & Hbefore).
    exists (S k), h0. repeat split; [done | done | simpl; lia |].
    intros [| j] h' Hj Hh'.
    + simpl in Hh'. by injection Hh' as <-.
    + apply (Hbefore j); [lia | done].
  - done.
Qed.

(** ** All cores at rest *)

Lemma float_eq_int_0 (x : float) :
  float_eq_int x 0 = true -> exists s, x = S754_zero s.
Proof.
  unfold float_eq_int, float_cmp_int. destruct x as [s | s | | s m e].
  - by exists s.
  - by destruct s.
  - done.
  - destruct (0 <=? e) eqn:He; [| by destruct s].
    apply Z.leb_le in He. pose proof (Z.pow_pos_nonneg 2 e ltac:(lia) He).
    destruct (Z.compare_spec ((if s then Z.neg m else Z.pos m) * 2 ^ e) 0)
      as [Heq | Hlt | Hgt]; try done.
    destruct s; nia.
Qed.

(** A sum of zeros is the float 0.0. *)
Lemma sum_at_rest (l : list float) :
  (forall x, x ∈ l -> float_eq_int x 0 = true) -> sum l = S754_zero false.
Proof.
  unfold sum. change (float_of_int 0) with (S754_zero false).
  induction l as [| x l IH]; intros Hl; [done |].
  destruct (float_eq_int_0 x) as [s ->]; [apply Hl; left |].
  change (fold_left float_add (S754_zero s :: l) (S754_zero false))
    with (fold_left float_add l (float_add (S754_zero false) (S754_zero s))).
  assert (float_add (S754_zero false) (S754_zero s) = S754_zero false) as ->
    by (by destruct s).
  apply IH. intros y Hy. apply Hl. by right.
Qed.

Lemma elem_of_slice {A} (l : list A) (a b : Z) (x : A) : x ∈ slice l a b -> x ∈ l.
Proof.
  unfold slice. intros Hx. by apply subseteq_take, subseteq_drop in Hx.
Qed.

Lemma idle_at_rest (n : Z) (w : list float) :
  0 < n -> (forall x, x ∈ w -> float_eq_int x 0 = true) -> idle n w = true.
Proof.
  intros Hn Hw. apply idle_true. split.
  - rewrite sum_at_rest by done. unfold float_lt_int, float_cmp_int.
    assert ((0 ?= 30 * n) = Lt) as -> by (apply Z.compare_lt_iff; lia). done.
  - intros x Hx. destruct (float_eq_int_0 x (Hw x Hx)) as [s ->]. done.
Qed.


(** The usage 0.1, 64.1 and 25.8 of three cores adds up, in floats, to the
    float just below 90, and the window is accepted. *)
Lemma float_sum_rounds :
  sum (cpu_percent rounding_host) = S754_finite false 6333186975989759 (-46)
  /\ float_of_int 90 = S754_finite false 6333186975989760 (-46)
  /\ float_lt_int (sum (cpu_percent rounding_host)) (30 * 3) = true
  /\ get_free_cores 3 [rounding_host] = ([], Returned (0, 0, 2)).
Proof. by vm_compute. Qed.

(** ** Rounding to a float *)




















(** * The claims *)

(** C1, at the input where the code departs from it: on a host with one
    core, at rest and with nothing pinned, window 0 passes every test of
    the claim, and [get_free_cores(1)] raises [ZeroDivisionError] where
    the claim has it return that window. *)
Theorem C1_single_core_raises :
  scan_procs (process_iter single_core_host) [] = Ok []
  /\ accepted 1 [] (cpu_percent single_core_host) 0 = true
  /\ get_free_cores 1 [single_core_host] = ([], Raised ZeroDivisionError).
Proof. by vm_compute. Qed.

(** C2: a tuple [(node, first, last)] returned by [get_free_cores(n)]
    comes from the turn after the last sleep; with [count] the core count
    read in that turn, [last - first + 1 = n], [0 <= first <= last < count]
    and [first] is a multiple [i * n] of [n]. *)
Theorem C2_returned_window_shape (n : Z) (hosts : list Host)
    (events : list event) (node first last : Z) :
  get_free_cores n hosts = (events, Returned (node, first, last)) ->
  exists k h count,
    hosts !! k = Some h /\ length events = (2 * k)%nat
    /\ cpu_count h false = Some count
    /\ last - first + 1 = n
    /\ 0 <= first <= last /\ last < Z.of_nat count
    /\ exists i, 0 <= i /\ first = i * n.
Proof.
  intros (k & h & Hk & Hp & Hlen & _)%get_free_cores_returned.
  apply poll_returned in Hp as (d & count & i & _ & Hc & Hi & _ & _ & Ht).
  apply numa_info_ok in Ht as (_ & _ & [= -> -> ->]).
  destruct (window_bounds n (Z.of_nat count) i) as (Hn & Hlo & Hhi); [lia | done |].
  exists k, h, count. repeat split; try done; try lia.
  exists i. split; [lia | done].
Qed.

Lemma C2_witness :
  exists k h count,
    [pinned_host] !! k = Some h /\ length ([] : list event) = (2 * k)%nat
    /\ cpu_count h false = Some count
    /\ 15 - 8 + 1 = 8
    /\ 0 <= 8 <= 15 /\ 15 < Z.of_nat count
    /\ exists i, 0 <= i /\ 8 = i * 8.
Proof. apply (C2_returned_window_shape 8 [pinned_host] [] 0 8 15). by vm_compute. Defined.

(** C3: the window returned holds no core of the reserved set gathered in
    its turn; in particular, when that set covers all of [0, n), the
    window starts at [n] or later. *)
Theorem C3_returned_window_unreserved (n : Z) (hosts : list Host)
    (events : list event) (node first last : Z) :
  get_free_cores n hosts = (events, Returned (node, first, last)) ->
  exists k h d,
    hosts !! k = Some h /\ length events = (2 * k)%nat
    /\ scan_procs (process_iter h) [] = Ok d
    /\ (forall c, c ∈ d -> ~ first <= c <= last)
    /\ ((forall c, 0 <= c < n -> c ∈ d) -> n <= first).
Proof.
  intros (k & h & Hk & Hp & Hlen & _)%get_free_cores_returned.
  apply poll_returned in Hp as (d & count & i & Hd & _ & Hi & _ & Hacc & Ht).
  apply numa_info_ok in Ht as (_ & _ & [= -> -> ->]).
  destruct (window_bounds n (Z.of_nat count) i) as (Hn & _ & _); [lia | done |].
  apply accepted_true in Hacc as (Hfree & _).
  exists k, h, d. repeat split; try done.
  - intros c Hc Hin. apply (Hfree c); [lia | done].
  - intros Hcover. destruct (Z.eq_dec i 0) as [-> | Hne]; [| nia].
    exfalso. apply (Hfree 0); [lia |]. apply Hcover. lia.
Qed.

Lemma C3_witness :
  exists k h d,
    [pinned_host] !! k = Some h /\ length ([] : list event) = (2 * k)%nat
    /\ scan_procs (process_iter h) [] = Ok d
    /\ (forall c, c ∈ d -> ~ 8 <= c <= 15)
    /\ ((forall c, 0 <= c < 8 -> c ∈ d) -> 8 <= 8).
Proof. apply (C3_returned_window_unreserved 8 [pinned_host] [] 0). by vm_compute. Defined.





(** C6: the first component of a returned tuple is
    [(first mod count) / (count / 2)], floor division, for the core count
    read in the returning turn.  With 64 cores and [n = 8], the window
    that starts at core 40 gives node 1 and the one that starts at core 8
    gives node 0. *)
Theorem C6_numa_node :
  (forall n hosts events node first last,
     get_free_cores n hosts = (events, Returned (node, first, last)) ->
     exists k h count,
       hosts !! k = Some h /\ length events = (2 * k)%nat
       /\ cpu_count h false = Some count
       /\ node = first mod Z.of_nat count / (Z.of_nat count / 2))
  /\ get_free_cores 8 [loaded_host 40] = ([], Returned (1, 40, 47))
  /\ get_free_cores 8 [loaded_host 8] = ([], Returned (0, 8, 15)).
Proof.
  split; [| by vm_compute].
  intros n hosts events node first last.
  intros (k & h & Hk & Hp & Hlen & _)%get_free_cores_returned.
  apply poll_returned in Hp as (d & count & i & _ & Hc & _ & _ & _ & Ht).
  apply numa_info_ok in Ht as (_ & _ & [= -> -> ->]).
  by exists k, h, count.
Qed.

Lemma C6_witness :
  exists k h count,
    [hot_host; loaded_host 40] !! k = Some h
    /\ length [Print 8 (cpu_percent hot_host); Sleep (tenths 305)] = (2 * k)%nat
    /\ cpu_count h false = Some count
    /\ 1 = 40 mod Z.of_nat count / (Z.of_nat count / 2).
Proof.
  apply (proj1 C6_numa_node 8 [hot_host; loaded_host 40]
           [Print 8 (cpu_percent hot_host); Sleep (tenths 305)] 1 40 47).
  by vm_compute.
Defined.

(** C7, as stated, fails: on a host whose 32 cores are all at rest while
    another simulation is pinned to cores 0-7, [get_free_cores(8)]
    does not return the first window. *)
Lemma C7_counterexample :
  (forall x, x ∈ cpu_percent pinned_host -> float_eq_int x 0 = true)
  /\ get_free_cores 8 [pinned_host] = ([], Returned (0, 8, 15))
  /\ get_free_cores 8 [pinned_host] <> ([], Returned (0, 0, 7)).
Proof.
  split; [| by vm_compute].
  intros x Hx. apply list_elem_of_In in Hx. by apply repeat_spec in Hx as ->.
Qed.

(** C7, amended: when every core is at rest, no core of [0, n) is
    reserved, [1 <= n <= count] and the host has at least two cores,
    [get_free_cores(n)] returns [(0, 0, n - 1)] in its first turn, without
    printing or sleeping. *)
Theorem C7_all_at_rest (n : Z) (h : Host) (later : list Host)
    (d : list Z) (count : nat) :
  scan_procs (process_iter h) [] = Ok d ->
  cpu_count h false = Some count ->
  (2 <= count)%nat ->
  1 <= n <= Z.of_nat count ->
  (forall c, 0 <= c < n -> c ∉ d) ->
  (forall x, x ∈ cpu_percent h -> float_eq_int x 0 = true) ->
  get_free_cores n (h :: later) = ([], Returned (0, 0, n - 1)).
Proof.
  intros Hd Hc Htwo Hn Hfree Hrest.
  assert (accepted n d (cpu_percent h) 0 = true) as Hacc.
  { unfold accepted. apply andb_true_iff. split.
    - apply negb_true_iff, reserved_false. intros c Hcore. apply Hfree. lia.
    - apply idle_at_rest; [lia |]. intros x Hx. apply Hrest.
      by apply elem_of_slice in Hx. }
  assert (poll n h = Ok (Some (0, 0, n - 1))) as Hp.
  { rewrite (poll_first n h d count Hd Hc ltac:(lia) 0); try done.
    - by rewrite numa_info_count.
    - split; [lia |]. apply Z.div_str_pos. lia.
    - intros j Hj. lia. }
  simpl. by rewrite Hp.
Qed.

Lemma C7_witness :
  get_free_cores 8 [loaded_host 0; hot_host] = ([], Returned (0, 0, 8 - 1)).
Proof.
  apply (C7_all_at_rest 8 (loaded_host 0) [hot_host] [] 64).
  - reflexivity.
  - reflexivity.
  - lia.
  - lia.
  - intros c _. apply not_elem_of_nil.
  - intros x Hx. apply list_elem_of_In in Hx. by apply repeat_spec in Hx as ->.
Defined.

(** C8, as stated, fails: on a host with two cores of two threads each,
    the utilization snapshot has four entries and the logical count is
    four, yet [get_free_cores(2)] looks at one window only and finds
    nothing, where windows over the logical count would give [(1, 2, 3)]. *)
Lemma C8_counterexample :
  cpu_count smt_host true = Some (length (cpu_percent smt_host))
  /\ poll_logical 2 smt_host = Ok (Some (1, 2, 3))
  /\ poll 2 smt_host = Ok None
  /\ poll 2 smt_host <> poll_logical 2 smt_host.
Proof. by vm_compute. Qed.

(** C8, amended: the count that is cut into windows and bounds the core
    indices is the physical core count, [psutil.cpu_count(logical=False)]:
    a returned window is window [i] for some [i] below [physical // n] and
    ends below [physical], and the turn is the scan of the windows
    [0 .. physical // n - 1], whatever the logical count is. *)
Theorem C8_physical_core_count (n : Z) (h : Host) (physical : nat) :
  cpu_count h false = Some physical ->
  (forall node first last,
     poll n h = Ok (Some (node, first, last)) ->
     exists i, 0 <= i < Z.of_nat physical / n
               /\ first = i * n /\ last = i * n + n - 1
               /\ last < Z.of_nat physical)
  /\ (forall d, scan_procs (process_iter h) [] = Ok d -> n <> 0 ->
        poll n h = scan_windows n (Z.of_nat physical) d (cpu_percent h)
                     (range 0 (Z.of_nat physical / n)))
  /\ (forall logical,
        poll n {| process_iter := process_iter h;
                  cpu_count := fun b => if b then logical else cpu_count h false;
                  cpu_percent := cpu_percent h;
                  random := random h |}
        = poll n h).
Proof.
  intros Hc. repeat split.
  - intros node first last Hp.
    apply poll_returned in Hp as (d & count & i & _ & Hc' & Hi & _ & _ & Ht).
    assert (count = physical) as -> by congruence.
    apply numa_info_ok in Ht as (_ & _ & [= -> -> ->]).
    destruct (window_bounds n (Z.of_nat physical) i) as (Hn & Hlo & Hhi);
      [lia | done |].
    exists i. repeat split; try done; lia.
  - intros d Hd Hn. by apply poll_windows.
Qed.

Lemma C8_witness :
  (forall node first last,
     poll 2 smt_host = Ok (Some (node, first, last)) ->
     exists i, 0 <= i < Z.of_nat 2 / 2
               /\ first = i * 2 /\ last = i * 2 + 2 - 1
               /\ last < Z.of_nat 2)
  /\ (forall d, scan_procs (process_iter smt_host) [] = Ok d -> 2 <> 0 ->
        poll 2 smt_host = scan_windows 2 (Z.of_nat 2) d (cpu_percent smt_host)
                     (range 0 (Z.of_nat 2 / 2)))
  /\ (forall logical,
        poll 2 {| process_iter := process_iter smt_host;
                  cpu_count := fun b => if b then logical else cpu_count smt_host false;
                  cpu_percent := cpu_percent smt_host;
                  random := random smt_host |}
        = poll 2 smt_host).
Proof. apply (C8_physical_core_count 2 smt_host 2). reflexivity. Defined.

(** C9, as stated, fails: when the wait times out there is no exit code
    to hand back, and [__exec_cmd] returns 0. *)
Lemma C9_counterexample :
  (__exec_cmd "make -C $NOOP_HOME clean" TimeoutExpired).2 = 0
  /\ ~ propagates_exit_code "make -C $NOOP_HOME clean" TimeoutExpired.
Proof.
  split; [done |]. by intros (return_code & [=] & _).
Qed.

(** C9, amended: [__exec_cmd] returns the exit code of the subprocess when
    the wait ends with one; when the wait times out or is interrupted
    from the keyboard, it sends SIGINT to the process group and returns 0. *)
Theorem C9_exit_code_or_zero (cmd : string) :
  (forall return_code,
     propagates_exit_code cmd (Exited return_code)
     /\ (__exec_cmd cmd (Exited return_code)).2 = return_code
     /\ Killpg_SIGINT ∉ (__exec_cmd cmd (Exited return_code)).1)
  /\ (__exec_cmd cmd TimeoutExpired).2 = 0
  /\ Killpg_SIGINT ∈ (__exec_cmd cmd TimeoutExpired).1
  /\ (__exec_cmd cmd KeyboardInterrupt).2 = 0
  /\ Killpg_SIGINT ∈ (__exec_cmd cmd KeyboardInterrupt).1.
Proof.
  split.
  - intros return_code. split; [by exists return_code |]. split; [done |].
    simpl. rewrite !elem_of_cons, elem_of_nil. by intros [| [| [|]]].
  - simpl. repeat split; rewrite !elem_of_cons; auto.
Qed.

(** C10: when [n] exceeds the core count read in every turn, each turn
    has [count // n = 0] windows, and the call never returns: whatever
    the utilization and the reserved cores, it is still polling after
    any number of turns, having printed and slept once in each. *)
Theorem C10_window_larger_than_host (n : Z) (hosts : list Host) :
  (forall h, h ∈ hosts ->
     exists count d,
       cpu_count h false = Some count /\ Z.of_nat count < n
       /\ scan_procs (process_iter h) [] = Ok d) ->
  (forall h count, h ∈ hosts -> cpu_count h false = Some count ->
                   Z.of_nat count / n = 0)
  /\ get_free_cores n hosts
     = (flat_map (fun h => [Print n (cpu_percent h);
                            Sleep (uniform 1 60 (random h))]) hosts,
        Polling).
Proof.
  intros Hall. split.
  - intros h count Hh Hc. destruct (Hall h Hh) as (count' & d & Hc' & Hlt & _).
    assert (count' = count) as -> by congruence.
    apply Z.div_small. lia.
  - induction hosts as [| h later IH]; [done |].
    destruct (Hall h) as (count & d & Hc & Hlt & Hd); [left |].
    rewrite get_free_cores_retry.
    + rewrite IH; [done |]. intros h' Hh'. apply Hall. by right.
    + apply (poll_none n h d count); try done; [lia |].
      intros i Hi. rewrite Z.div_small in Hi by lia. lia.
Qed.

Lemma C10_witness :
  (forall h count, h ∈ [pinned_host; hot_host] -> cpu_count h false = Some count ->
                   Z.of_nat count / 33 = 0)
  /\ get_free_cores 33 [pinned_host; hot_host]
     = (flat_map (fun h => [Print 33 (cpu_percent h);
                            Sleep (uniform 1 60 (random h))])
          [pinned_host; hot_host],
        Polling).
Proof.
  apply (C10_window_larger_than_host 33 [pinned_host; hot_host]).
  intros h Hh. repeat (apply elem_of_cons in Hh as [-> | Hh]).
  - exists 32%nat, [0; 1; 2; 3; 4; 5; 6; 7]. by vm_compute.
  - exists 4%nat, []. by vm_compute.
  - by apply elem_of_nil in Hh.
Defined.

(** * Lemmas on the rest of the script *)

(** ** The pinning written by [run_emu] and read by [get_free_cores] *)

Lemma emu_cmd_split (self : XiangShan.t) (workload : string) :
  exists tail, forall numa_args,
    XiangShan.emu_cmd self workload numa_args
    = "ulimit -s 32768; " +:+ numa_args +:+ " " +:+ tail.
Proof. eexists. intros numa_args. unfold XiangShan.emu_cmd. reflexivity. Qed.

(** The command line of [run_emu] for a window, after any text without
    a newline, matches [numa_re] with the two ends of the window as its
    groups. *)
Lemma emu_cmd_read_back (self : XiangShan.t) (workload pre : string)
    (node first last : Z) :
  0 <= node -> 0 <= first -> 0 <= last ->
  all_in Any pre = true ->
  str_in "-C" (XiangShan.emu_cmd self workload "") = false ->
  re_match numa_re
    (pre +:+ XiangShan.emu_cmd self workload
               (XiangShan.numa_args_of (node, first, last)))
  = Some [str first; str last].
Proof.
  intros Hnode Hfirst Hlast Hpre HnoC.
  destruct (emu_cmd_split self workload) as (tail & Hsplit).
  rewrite Hsplit in HnoC. rewrite Hsplit. unfold XiangShan.numa_args_of. simpl fst. simpl snd.
  destruct (str_digits node Hnode) as [_ HN].
  destruct (str_digits first Hfirst) as [HA0 HA].
  destruct (str_digits last Hlast) as [HB0 HB].
  replace (pre +:+ "ulimit -s 32768; "
           +:+ ("numactl -m " +:+ str node +:+ " -C " +:+ str first +:+ "-"
                +:+ str last) +:+ " " +:+ tail)
    with ((pre +:+ "ulimit -s 32768; ")
          +:+ "numactl -m " +:+ str node +:+ " -C " +:+ str first +:+ "-"
          +:+ str last +:+ " " +:+ tail)
    by (rewrite !append_assoc; reflexivity).
  apply read_back; try done.
  rewrite all_in_append, Hpre. reflexivity.
Qed.

(** A scan that ends normally has collected the cores of each process
    whose inspection went well. *)
Lemma scan_procs_keeps (procs : list Proc) :
  forall acc d, scan_procs procs acc = Ok d -> forall c, c ∈ acc -> c ∈ d.
Proof.
  induction procs as [| q rest IH]; intros acc d Hd c Hc; simpl in Hd.
  - by injection Hd as <-.
  - destruct (pinned_cores q) as [cores | e].
    + apply (IH _ _ Hd). apply elem_of_app. by left.
    + destruct (caught e); [by apply (IH _ _ Hd) | done].
Qed.

Lemma scan_procs_incl (procs : list Proc) (p : Proc) (cores : list Z) :
  p ∈ procs -> pinned_cores p = Ok cores ->
  forall acc d, scan_procs procs acc = Ok d -> forall c, c ∈ cores -> c ∈ d.
Proof.
  intros Hp Hcores. induction procs as [| q rest IH]; intros acc d Hd c Hc.
  - by apply elem_of_nil in Hp.
  - simpl in Hd. apply elem_of_cons in Hp as [<- | Hp].
    + rewrite Hcores in Hd. apply (scan_procs_keeps _ _ _ Hd).
      apply elem_of_app. by right.
    + destruct (pinned_cores q) as [cores' | e].
      * by apply (IH Hp _ _ Hd).
      * destruct (caught e); [by apply (IH Hp _ _ Hd) | done].
Qed.

Lemma pinned_cores_emu (self : XiangShan.t) (workload pre pname : string)
    (node first last : Z) (p : Proc) (args : list string) :
  0 <= node -> 0 <= first -> 0 <= last ->
  all_in Any pre = true ->
  str_in "-C" (XiangShan.emu_cmd self workload "") = false ->
  cmdline p = Ok args ->
  String.concat " " args
  = pre +:+ XiangShan.emu_cmd self workload
              (XiangShan.numa_args_of (node, first, last)) ->
  name p = Ok pname -> str_in "ssh" pname = false ->
  pinned_cores p = Ok (range first (last + 1))
  \/ pinned_cores p = Raise ValueError.
Proof.
  intros Hnode Hfirst Hlast Hpre HnoC Hargs Hjoint Hname Hssh.
  unfold pinned_cores. rewrite Hargs. simpl. rewrite Hjoint.
  rewrite emu_cmd_read_back by done. rewrite Hname. simpl. rewrite Hssh. simpl.
  change (group [str first; str last] 1) with (str first).
  change (group [str first; str last] 2) with (str last).
  unfold int.
  destruct (int_max_str_digits <? String.length (str first))%nat; [by right |].
  destruct (int_max_str_digits <? String.length (str last))%nat; [by right |].
  left. simpl. by rewrite !int_acc_str.
Qed.

(** ** Text helpers *)

Lemma endswith_true (s suffix : string) :
  endswith s suffix = true <-> exists pre, s = pre +:+ suffix.
Proof.
  induction s as [| a s IH].
  - change (endswith "" suffix) with (String.eqb "" suffix || false).
    rewrite orb_false_r, String.eqb_eq. split.
    + intros <-. by exists "".
    + intros ([| b pre] & Hs); [done | done].
  - change (endswith (String a s) suffix)
      with (String.eqb (String a s) suffix || endswith s suffix).
    rewrite orb_true_iff, String.eqb_eq, IH. split.
    + intros [<- | (pre & ->)]; [by exists "" | by exists (String a pre)].
    + intros ([| b pre] & Hs); [by left |].
      rewrite append_cons in Hs. injection Hs as <- ->. right. by exists pre.
Qed.

Lemma endswith_append (pre s suffix : string) :
  endswith s suffix = true -> endswith (pre +:+ s) suffix = true.
Proof.
  rewrite !endswith_true. intros (pre' & ->). exists (pre +:+ pre').
  by rewrite append_assoc.
Qed.

(** A joined path ends the way its last component does. *)
Lemma join2_endswith (path b suffix : string) :
  endswith b suffix = true -> endswith (join2 path b) suffix = true.
Proof.
  intros Hb. unfold join2. destruct (String.prefix "/" b); [done |].
  destruct (String.eqb path "" || endswith path "/").
  - by apply endswith_append.
  - apply endswith_append. by apply (endswith_append "/").
Qed.

(** ** The file finders *)

Lemma elem_of_flat_map {A B} (f : A -> list B) (l : list A) (y : B) :
  y ∈ flat_map f l <-> exists x, x ∈ l /\ y ∈ f x.
Proof.
  rewrite list_elem_of_In, in_flat_map. split.
  - intros (x & Hx & Hy). exists x. by rewrite !list_elem_of_In.
  - intros (x & Hx & Hy). exists x. by rewrite <- !list_elem_of_In.
Qed.

Lemma find_files_elem (w : World) (root_dir : string) (suffixes : list string)
    (path : string) :
  path ∈ find_files_with_suffix w root_dir suffixes
  <-> exists dirpath dirnames filenames filename suffix,
        (dirpath, dirnames, filenames) ∈ walk w root_dir
        /\ filename ∈ filenames
        /\ suffix ∈ suffixes
        /\ endswith filename suffix = true
        /\ path = path_join dirpath [filename].
Proof.
  unfold find_files_with_suffix. rewrite elem_of_flat_map. split.
  - intros ([[dirpath dirnames] filenames] & Hwalk & Hpath).
    apply elem_of_flat_map in Hpath as (filename & Hfile & Hpath).
    destruct (existsb _ suffixes) eqn:Hany; [| by apply elem_of_nil in Hpath].
    apply list_elem_of_singleton in Hpath as ->.
    apply existsb_exists in Hany as (suffix & Hsuffix & Hends).
    apply list_elem_of_In in Hsuffix.
    by exists dirpath, dirnames, filenames, filename, suffix.
  - intros (dirpath & dirnames & filenames & filename & suffix
            & Hwalk & Hfile & Hsuffix & Hends & ->).
    exists (dirpath, dirnames, filenames). split; [done |].
    apply elem_of_flat_map. exists filename. split; [done |].
    assert (existsb (fun suffix => endswith filename suffix) suffixes = true) as ->.
    { apply existsb_exists. exists suffix. by apply list_elem_of_In in Hsuffix. }
    by apply list_elem_of_singleton.
Qed.

Lemma load_all_gcpt_elem (w : World) (gcpt_paths : list string) (path : string) :
  path ∈ load_all_gcpt w gcpt_paths
  <-> exists gcpt_path,
        gcpt_path ∈ gcpt_paths
        /\ path ∈ find_files_with_suffix w gcpt_path [".zstd"; ".gz"].
Proof. unfold load_all_gcpt. apply elem_of_flat_map. Qed.

(** ** The loops over actions and targets *)

Lemma exec_copies (w : World) (copies : list string) :
  flat_map (fun cmd => (XiangShan.exec w cmd).1) copies
  = map (fun cmd => Exec cmd (wait w cmd)) copies.
Proof.
  induction copies as [| cmd copies IH]; [done |]. simpl. by f_equal.
Qed.

Section CiLoop.
Variables (w : World) (self : XiangShan.t)
  (run_one : string -> list effect * ending) (copies : list string).

Lemma ci_loop_cons (target : string) (later : list string) :
  XiangShan.ci_loop w self run_one copies (target :: later)
  = match run_one target with
    | (effects, Exit ret) =>
        if negb (ret =? 0) then (effects ++ saved w self copies, Exit ret)
        else let (effects', e) := XiangShan.ci_loop w self run_one copies later in
             (effects ++ effects', e)
    | (effects, e) => (effects, e)
    end.
Proof. unfold saved. rewrite <- exec_copies. reflexivity. Qed.

Lemma ci_loop_pass (todo : list string) :
  (forall target, target ∈ todo -> (run_one target).2 = Exit 0) ->
  XiangShan.ci_loop w self run_one copies todo
  = (flat_map (fun target => (run_one target).1) todo, Exit 0).
Proof.
  induction todo as [| target later IH]; intros Hall; [done |].
  simpl. pose proof (Hall target ltac:(left)) as Ht.
  destruct (run_one target) as [effects e]. simpl in Ht. subst e. simpl.
  rewrite IH; [done |]. intros t Ht. apply Hall. by right.
Qed.

Lemma ci_loop_fail (before after : list string) (target : string)
    (effects : list effect) (ret : Z) :
  (forall t, t ∈ before -> (run_one t).2 = Exit 0) ->
  run_one target = (effects, Exit ret) -> ret <> 0 ->
  XiangShan.ci_loop w self run_one copies (before ++ target :: after)
  = (flat_map (fun t => (run_one t).1) before ++ effects ++ saved w self copies, Exit ret).
Proof.
  intros Hbefore Htarget Hret.
  induction before as [| t before IH].
  - change ([] ++ target :: after) with (target :: after).
    rewrite ci_loop_cons, Htarget.
    by destruct (Z.eqb_spec ret 0) as [-> | _].
  - change ((t :: before) ++ target :: after) with (t :: before ++ target :: after).
    rewrite ci_loop_cons.
    pose proof (Hbefore t ltac:(left)) as Ht.
    destruct (run_one t) as [effects' e] eqn:Hrun. simpl in Ht. subst e.
    change (negb (0 =? 0)) with false. cbv iota.
    rewrite IH.
    + simpl. by rewrite Hrun, <- app_assoc.
    + intros t' Ht'. apply Hbefore. by right.
Qed.

Lemma ci_loop_zero (todo : list string) (effects : list effect) :
  XiangShan.ci_loop w self run_one copies todo = (effects, Exit 0) ->
  (forall target, target ∈ todo -> (run_one target).2 = Exit 0)
  /\ effects = flat_map (fun target => (run_one target).1) todo.
Proof.
  revert effects. induction todo as [| target later IH]; intros effects Hloop.
  - simpl in Hloop. injection Hloop as <-. split; [| done].
    intros t Ht. by apply elem_of_nil in Ht.
  - simpl in Hloop. destruct (run_one target) as [effs e] eqn:Hrun.
    destruct e as [ret | err |]; [| done | done].
    destruct (Z.eqb_spec ret 0) as [-> | Hne]; simpl in Hloop.
    + destruct (XiangShan.ci_loop w self run_one copies later) as [effs' e'].
      injection Hloop as <- ->. destruct (IH _ eq_refl) as [Hall ->].
      split; [| simpl; by rewrite Hrun]. intros t Ht.
      apply elem_of_cons in Ht as [-> | Ht]; [by rewrite Hrun | by apply Hall].
    + injection Hloop as _ Hret. congruence.
Qed.
End CiLoop.

Lemma run_actions_pass (valid : list (list effect * ending)) :
  (forall act, act ∈ valid -> act.2 = Exit 0) ->
  XiangShan.run_actions valid = (flat_map fst valid, Exit 0).
Proof.
  induction valid as [| [effects e] later IH]; intros Hall; [done |].
  pose proof (Hall _ ltac:(left)) as He. simpl in He. subst e. simpl.
  rewrite IH; [done |]. intros act Hact. apply Hall. by right.
Qed.

Lemma run_actions_stop (before after : list (list effect * ending))
    (effects : list effect) (e : ending) :
  (forall act, act ∈ before -> act.2 = Exit 0) ->
  e <> Exit 0 ->
  XiangShan.run_actions (before ++ (effects, e) :: after)
  = (flat_map fst before ++ effects, e).
Proof.
  intros Hbefore He. induction before as [| [effs e'] before IH]; simpl.
  - destruct e as [ret | err |]; [| done | done].
    destruct (Z.eqb_spec ret 0) as [-> | _]; done.
  - pose proof (Hbefore _ ltac:(left)) as He'. simpl in He'. subst e'. simpl.
    rewrite IH; [by rewrite <- app_assoc |]. intros act Hact. apply Hbefore. by right.
Qed.

(** ** [XSArgs.__init__] *)

Lemma extract_path_spec (w : World) (path : option string) (env d : string) :
  XSArgs.__extract_path w path (Some env) (Some d)
  = Done (realpath w (match path with
                      | Some p => p
                      | None => default d (environ w !! env)
                      end)).
Proof.
  unfold XSArgs.__extract_path. destruct path as [p |]; [done |].
  by destruct (environ w !! env).
Qed.

(** The object that [__init__] builds, field by field. *)
Lemma init_inv (w : World) (args0 : Namespace.t) (xs : XSArgs.t) :
  XSArgs.__init__ w args0 = Done xs ->
  exists diff,
    (if Namespace.spike args0
     then exists d, Namespace.diff args0 = Some d
                    /\ diff = Some (if str_in "nemu" d
                                    then replace d "nemu-interpreter" "spike"
                                    else d)
     else diff = Namespace.diff args0)
    /\ xs = {|
      XSArgs.noop_home :=
        realpath w (default (XSArgs.class_noop_home w) (environ w !! "NOOP_HOME"));
      XSArgs.nemu_home :=
        realpath w (match Namespace.nemu args0 with
                    | Some p => p
                    | None => default (XSArgs.class_nemu_home w) (environ w !! "NEMU_HOME")
                    end);
      XSArgs.am_home :=
        realpath w (match Namespace.am args0 with
                    | Some p => p
                    | None => default (XSArgs.class_am_home w) (environ w !! "AM_HOME")
                    end);
      XSArgs.dramsim3_home :=
        realpath w (match Namespace.dramsim3 args0 with
                    | Some p => p
                    | None => default (XSArgs.class_dramsim3_home w)
                                (environ w !! "DRAMSIM3_HOME")
                    end);
      XSArgs.rvtest_home :=
        realpath w (match Namespace.rvtest args0 with
                    | Some p => p
                    | None => default (XSArgs.class_rvtest_home w)
                                (environ w !! "RVTEST_HOME")
                    end);
      XSArgs.default_wave_home := XSArgs.class_default_wave_home w;
      XSArgs.wave_home := default (XSArgs.class_default_wave_home w)
                            (Namespace.wave_dump args0);
      XSArgs.enable_log := Namespace.enable_log args0;
      XSArgs.num_cores := VInt <$> Namespace.num_cores args0;
      XSArgs.threads := Namespace.threads args0;
      XSArgs.make_threads := VInt <$> Namespace.make_threads args0;
      XSArgs.with_dramsim3 := XSArgs.one_if (Namespace.with_dramsim3 args0);
      XSArgs.is_release := XSArgs.one_if (Namespace.release args0);
      XSArgs.is_spike := if Namespace.spike args0 then Some (VStr "Spike") else None;
      XSArgs.trace := XSArgs.one_if (Namespace.trace args0
                                     || negb (Namespace.disable_fork args0)
                                        && negb (Namespace.trace_fst args0));
      XSArgs.trace_fst := if Namespace.trace_fst args0 then Some (VStr "fst") else None;
      XSArgs.config := VStr <$> Namespace.config args0;
      XSArgs.yaml_config := VStr <$> Namespace.yaml_config args0;
      XSArgs.emu_optimize := VStr <$> Namespace.emu_optimize args0;
      XSArgs.xprop := XSArgs.one_if (Namespace.xprop args0);
      XSArgs.issue := VStr <$> Namespace.issue args0;
      XSArgs.with_chiseldb := Some (VInt (if Namespace.no_db args0 then 0 else 1));
      XSArgs.max_instr := VInt <$> Namespace.max_instr args0;
      XSArgs.ram_size := VStr <$> Namespace.ram_size args0;
      XSArgs.seed := Some (VInt (randint w));
      XSArgs.numa := Namespace.numa args0;
      XSArgs.diff := VStr <$> diff;
      XSArgs.fork := negb (Namespace.disable_fork args0);
      XSArgs.disable_diff := Namespace.no_diff args0;
      XSArgs.disable_db := Namespace.no_db args0;
      XSArgs.gcpt_restore_bin := Namespace.gcpt_restore_bin args0;
      XSArgs.pgo := VStr <$> Namespace.pgo args0;
      XSArgs.pgo_max_cycle := VInt <$> Namespace.pgo_max_cycle args0;
      XSArgs.pgo_emu_args := VStr <$> Namespace.pgo_emu_args args0;
      XSArgs.llvm_profdata := VStr <$> Namespace.llvm_profdata args0
    |}.
Proof.
  unfold XSArgs.__init__. rewrite !extract_path_spec.
  unfold XSArgs.__extract_path. simpl.
  destruct (Namespace.spike args0).
  - destruct (Namespace.diff args0) as [d |]; [| done]. intros Hxs.
    exists (Some (if str_in "nemu" d then replace d "nemu-interpreter" "spike" else d)).
    split; [by exists d |].
    destruct (str_in "nemu" d); simpl in Hxs; injection Hxs as <-;
      by destruct (Namespace.wave_dump args0).
  - simpl. intros [= <-]. exists (Namespace.diff args0).
    split; [done | by destruct (Namespace.wave_dump args0)].
Qed.

Lemma init_fails (w : World) (args0 : Namespace.t) (e : error) :
  XSArgs.__init__ w args0 = Fail e ->
  Namespace.spike args0 = true /\ Namespace.diff args0 = None /\ e = Exn TypeError.
Proof.
  unfold XSArgs.__init__. rewrite !extract_path_spec.
  unfold XSArgs.__extract_path. simpl.
  destruct (Namespace.spike args0); [| done].
  destruct (Namespace.diff args0) as [d |]; [by destruct (str_in "nemu" d) |].
  by intros [= <-].
Qed.

(** ** Make variables *)

Lemma not_none_app {A} (l1 l2 : list (option A * string)) :
  XSArgs.not_none (l1 ++ l2) = XSArgs.not_none l1 ++ XSArgs.not_none l2.
Proof. unfold XSArgs.not_none. apply flat_map_app. Qed.

(** Selecting the pairs of one name commutes with dropping the [None]
    values and with quoting. *)
Lemma named_not_none (w : World) (name : string)
    (l : list (option pyval * string)) :
  filter (fun arg => arg.2 = name)
    (map (fun arg : pyval * string => (quote w (str_val arg.1), arg.2))
       (XSArgs.not_none l))
  = map (fun arg : pyval * string => (quote w (str_val arg.1), arg.2))
      (XSArgs.not_none (filter (fun arg => arg.2 = name) l)).
Proof.
  induction l as [| [[v |] nm] l IH]; [done | |].
  - rewrite !filter_cons. simpl. rewrite !filter_cons. simpl.
    destruct (decide (nm = name)); simpl; by rewrite IH.
  - rewrite !filter_cons. simpl.
    destruct (decide (nm = name)); simpl; by rewrite IH.
Qed.

(** ** [str.replace] *)

Lemma replace_absent (s old new : string) :
  str_in old s = false -> replace s old new = s.
Proof.
  unfold replace. induction s as [| a s IH]; [done |].
  change (str_in old (String a s))
    with (String.prefix old (String a s) || str_in old s).
  intros [Hhere Hlater]%orb_false_iff.
  change (replace_from old new 0 (String a s))
    with (if String.prefix old (String a s)
          then new +:+ replace_from old new (String.length old - 1) s
          else String a (replace_from old new 0 s)).
  by rewrite Hhere, IH.
Qed.

(** * Further properties *)

(** X1: the pinning that [run_emu] writes is the one [get_free_cores]
    reads.  The command built for a window [(node, first, last)] of
    natural numbers, after any text without a newline (the shell that
    runs it), matches [numa_re], and the two groups write [first] and
    [last], provided the rest of the command holds no [-C]; [int] reads
    each of them back when it has no more digits than [int] accepts. *)
Theorem X1_emu_pinning_read_back (self : XiangShan.t) (workload pre : string)
    (node first last : Z) :
  0 <= node -> 0 <= first -> 0 <= last ->
  all_in Any pre = true ->
  str_in "-C" (XiangShan.emu_cmd self workload "") = false ->
  exists g1 g2,
    re_match numa_re
      (pre +:+ XiangShan.emu_cmd self workload
                 (XiangShan.numa_args_of (node, first, last)))
    = Some [g1; g2]
    /\ writes g1 first /\ writes g2 last
    /\ ((String.length g1 <= int_max_str_digits)%nat -> int g1 = Ok first)
    /\ ((String.length g2 <= int_max_str_digits)%nat -> int g2 = Ok last).
Proof.
  intros Hnode Hfirst Hlast Hpre HnoC. exists (str first), (str last).
  split; [by apply emu_cmd_read_back |].
  split; [by apply writes_str |]. split; [by apply writes_str |].
  split; intros Hlen; by rewrite int_ok, int_acc_str.
Qed.

Lemma X1_witness :
  exists g1 g2,
    re_match numa_re
      ("/bin/sh -c " +:+ XiangShan.emu_cmd sample_xs "a.bin"
                           (XiangShan.numa_args_of (1, 40, 47)))
    = Some [g1; g2]
    /\ writes g1 40 /\ writes g2 47
    /\ ((String.length g1 <= int_max_str_digits)%nat -> int g1 = Ok 40)
    /\ ((String.length g2 <= int_max_str_digits)%nat -> int g2 = Ok 47).
Proof.
  apply (X1_emu_pinning_read_back sample_xs "a.bin" "/bin/sh -c " 1 40 47);
    by vm_compute.
Defined.

(** X2: a window is not handed out twice.  While a process that runs
    the command of [run_emu] for the window [first..last] is in the
    process table (under a name without [ssh]), a window returned by
    [get_free_cores] does not overlap [first..last]. *)
Theorem X2_running_emu_keeps_its_window (self : XiangShan.t)
    (workload pre pname : string) (node first last : Z) (p : Proc)
    (args : list string) (n : Z) (hosts : list Host) (events : list event)
    (node' first' last' : Z) :
  0 <= node -> 0 <= first <= last ->
  all_in Any pre = true ->
  str_in "-C" (XiangShan.emu_cmd self workload "") = false ->
  cmdline p = Ok args ->
  String.concat " " args
  = pre +:+ XiangShan.emu_cmd self workload
              (XiangShan.numa_args_of (node, first, last)) ->
  name p = Ok pname -> str_in "ssh" pname = false ->
  (forall h, h ∈ hosts -> p ∈ process_iter h) ->
  get_free_cores n hosts = (events, Returned (node', first', last')) ->
  last' < first \/ last < first'.
Proof.
  intros Hnode Hwin Hpre HnoC Hargs Hjoint Hname Hssh Hrunning Hret.
  apply get_free_cores_returned in Hret as (k & h & Hk & Hp & _).
  apply poll_returned in Hp as (d & count & i & Hd & _ & Hi & _ & Hacc & Ht).
  apply numa_info_ok in Ht as (_ & _ & [= -> -> ->]).
  destruct (window_bounds n (Z.of_nat count) i) as (Hn & _ & _); [lia | done |].
  apply accepted_true in Hacc as (Hfree & _).
  assert (p ∈ process_iter h) as Hin.
  { apply Hrunning. by apply list_elem_of_lookup_2 in Hk. }
  assert (pinned_cores p = Ok (range first (last + 1))) as Hpin.
  { destruct (pinned_cores_emu self workload pre pname node first last p args)
      as [Hpin | Hraise]; try done; try lia.
    by destruct (scan_procs_uncaught _ _ _ [] d Hin Hraise eq_refl). }
  assert (forall c, first <= c <= last -> c ∈ d) as Hheld.
  { intros c Hc. apply (scan_procs_incl _ _ _ Hin Hpin _ _ Hd).
    apply elem_of_range. lia. }
  destruct (Z.lt_ge_cases (i * n + n - 1) first) as [Hlt | Hge]; [by left |].
  destruct (Z.lt_ge_cases last (i * n)) as [Hlt' | Hge']; [by right |].
  exfalso. apply (Hfree (Z.max first (i * n))); [lia |]. apply Hheld. lia.
Qed.

Lemma X2_witness : 15 < 0 \/ 7 < 8.
Proof.
  apply (X2_running_emu_keeps_its_window numa_xs "a.bin" "/bin/sh -c " "sh"
           0 0 7 (emu_shell numa_xs "a.bin" (0, 0, 7))
           ["/bin/sh"; "-c";
            XiangShan.emu_cmd numa_xs "a.bin" (XiangShan.numa_args_of (0, 0, 7))]
           8 [shared_host] [] 0 8 15); try by vm_compute.
  intros h Hh. apply list_elem_of_singleton in Hh as ->. left.
Defined.

(** X3: [--numa] without [--threads].  When [args.numa] is set and
    [args.threads] is [None], [run_emu] raises [TypeError] in the first
    turn of [get_free_cores], once the processes are scanned, and runs no
    command. *)
Theorem X3_numa_without_threads (w : World) (args0 : Namespace.t)
    (xs : XiangShan.t) (workload : string) (h : Host) (later : list Host)
    (d : list Z) :
  XiangShan.__init__ w args0 = Done xs ->
  Namespace.numa args0 = true ->
  Namespace.threads args0 = None ->
  observe w workload = h :: later ->
  scan_procs (process_iter h) [] = Ok d ->
  XiangShan.run_emu w xs workload = ([], Error (Exn TypeError)).
Proof.
  intros Hinit Hnuma Hthreads Hobs Hscan.
  unfold XiangShan.__init__ in Hinit.
  destruct (XSArgs.__init__ w args0) as [xsargs | e] eqn:Hxs; [| done].
  injection Hinit as <-.
  apply init_inv in Hxs as (diff & _ & ->).
  unfold XiangShan.run_emu. simpl. rewrite Hnuma, Hthreads, Hobs. simpl.
  by rewrite Hscan.
Qed.

Lemma X3_witness :
  XiangShan.run_emu sample_world
    (made sample_world (command_line None false "a.bin" true None)) "a.bin"
  = ([], Error (Exn TypeError)).
Proof.
  apply (X3_numa_without_threads sample_world
           (command_line None false "a.bin" true None) _ "a.bin" pinned_host []
           [0; 1; 2; 3; 4; 5; 6; 7]); by vm_compute.
Defined.

(** X4: [run_ci] stops at the first failing workload.  When the targets
    before [target] run with return code 0 and [target] returns a code
    [ret] other than 0, [run_ci] returns [ret]; it has run the targets up
    to [target], then the five copy commands if [wave_home] is not the
    default one, and none of the targets after it. *)
Theorem X4_run_ci_stops_at_first_failure (w : World) (self : XiangShan.t)
    (test target : string) (before after : list string)
    (effects : list effect) (ret : Z) :
  XiangShan.targets w self test = Done (before ++ target :: after) ->
  (forall t, t ∈ before -> (XiangShan.run_emu w self t).2 = Exit 0) ->
  XiangShan.run_emu w self target = (effects, Exit ret) ->
  ret <> 0 ->
  XiangShan.run_ci w self test
  = (flat_map (fun t => (XiangShan.run_emu w self t).1) before
     ++ effects ++ saved w self emu_copies,
     Exit ret).
Proof.
  intros Htargets Hbefore Htarget Hret. unfold XiangShan.run_ci.
  rewrite Htargets. by apply ci_loop_fail.
Qed.

Lemma X4_witness :
  XiangShan.run_ci sample_world sample_xs "rvv-bench"
  = (flat_map (fun t => (XiangShan.run_emu sample_world sample_xs t).1)
       ["/nfs/home/share/ci-workloads/rvv-bench/poly1305.bin"]
     ++ [Exec (XiangShan.emu_cmd sample_xs
                 "/nfs/home/share/ci-workloads/rvv-bench/mergelines.bin" "")
           (Exited 1)]
     ++ saved sample_world sample_xs emu_copies,
     Exit 1).
Proof.
  apply (X4_run_ci_stops_at_first_failure sample_world sample_xs "rvv-bench"
           "/nfs/home/share/ci-workloads/rvv-bench/mergelines.bin"
           ["/nfs/home/share/ci-workloads/rvv-bench/poly1305.bin"] []).
  - by vm_compute.
  - intros t Ht. apply list_elem_of_singleton in Ht as ->. by vm_compute.
  - by vm_compute.
  - lia.
Defined.

(** X5: [run_ci] returns 0 only when every workload of the suite was
    run and returned 0; it has then run exactly the suite, in order, and
    no copy command. *)
Theorem X5_run_ci_zero_means_all_passed (w : World) (self : XiangShan.t)
    (test : string) (effects : list effect) :
  XiangShan.run_ci w self test = (effects, Exit 0) ->
  exists todo,
    XiangShan.targets w self test = Done todo
    /\ (forall target, target ∈ todo -> (XiangShan.run_emu w self target).2 = Exit 0)
    /\ effects = flat_map (fun target => (XiangShan.run_emu w self target).1) todo.
Proof.
  unfold XiangShan.run_ci.
  destruct (XiangShan.targets w self test) as [todo | e]; [| done].
  intros Hloop%ci_loop_zero. by exists todo.
Qed.

Lemma X5_witness :
  exists todo,
    XiangShan.targets sample_world sample_xs "zcb-test" = Done todo
    /\ (forall target, target ∈ todo ->
          (XiangShan.run_emu sample_world sample_xs target).2 = Exit 0)
    /\ [Exec (XiangShan.emu_cmd sample_xs
                "/nfs/home/share/ci-workloads/zcb-test/zcb-test-riscv64-xs.bin" "")
          (Exited 0)]
       = flat_map (fun target => (XiangShan.run_emu sample_world sample_xs target).1)
           todo.
Proof.
  apply (X5_run_ci_zero_means_all_passed sample_world sample_xs "zcb-test").
  by vm_compute.
Defined.

(** X6: a timeout counts as a pass.  Without [--numa], when the wait for
    every emulator of the suite ends with [TimeoutExpired] or
    [KeyboardInterrupt], [run_ci] runs the whole suite and returns 0. *)
Theorem X6_run_ci_timeouts_pass (w : World) (self : XiangShan.t)
    (test : string) (todo : list string) :
  XiangShan.targets w self test = Done todo ->
  XSArgs.numa (XiangShan.args self) = false ->
  (forall target, target ∈ todo ->
     wait w (XiangShan.emu_cmd self target "") = TimeoutExpired
     \/ wait w (XiangShan.emu_cmd self target "") = KeyboardInterrupt) ->
  XiangShan.run_ci w self test
  = (map (fun target =>
            Exec (XiangShan.emu_cmd self target "")
              (wait w (XiangShan.emu_cmd self target ""))) todo,
     Exit 0).
Proof.
  intros Htargets Hnuma Hstopped. unfold XiangShan.run_ci. rewrite Htargets.
  rewrite ci_loop_pass.
  - f_equal. clear Htargets Hstopped.
    induction todo as [| target todo IH]; [done |].
    simpl. unfold XiangShan.run_emu at 1. rewrite Hnuma. simpl. by rewrite IH.
  - intros target Ht. unfold XiangShan.run_emu. rewrite Hnuma.
    unfold XiangShan.exec. simpl.
    by destruct (Hstopped target Ht) as [-> | ->].
Qed.

Lemma X6_witness :
  XiangShan.run_ci sample_world sample_xs "coremark"
  = (map (fun target =>
            Exec (XiangShan.emu_cmd sample_xs target "")
              (wait sample_world (XiangShan.emu_cmd sample_xs target "")))
       ["/nfs/home/share/ci-workloads/nexus-am-workloads/apps/coremark/coremark-riscv64-xs.bin"],
     Exit 0).
Proof.
  apply (X6_run_ci_timeouts_pass sample_world sample_xs "coremark").
  - by vm_compute.
  - by vm_compute.
  - intros target Ht. apply list_elem_of_singleton in Ht as ->. left. by vm_compute.
Defined.

(** X7: the verdict of [run_simv].  When [args.diff] is set and the log
    can be read, [run_simv] runs one command and returns 0 exactly when
    the log holds [HIT GOOD TRAP], holds no [Offending], and the wait for
    the simulator ended with exit code 0, with a timeout or with a
    keyboard interrupt; it returns 1 whenever the log fails the test. *)
Theorem X7_run_simv_verdict (w : World) (self : XiangShan.t)
    (args0 : Namespace.t) (workload diff content : string) :
  Namespace.diff args0 = Some diff ->
  read w (XSArgs.noop_home (XiangShan.args self) +:+ "/build/simv.log")
  = Some content ->
  exists cmd ret,
    XiangShan.run_simv w self args0 workload = ([Exec cmd (wait w cmd)], Exit ret)
    /\ (ret = 0
        <-> str_in "HIT GOOD TRAP" content = true
            /\ str_in "Offending" content = false
            /\ (wait w cmd = Exited 0 \/ wait w cmd = TimeoutExpired
                \/ wait w cmd = KeyboardInterrupt))
    /\ (str_in "HIT GOOD TRAP" content = false \/ str_in "Offending" content = true
        -> ret = 1).
Proof.
  intros Hdiff Hread. unfold XiangShan.run_simv. rewrite Hdiff, Hread.
  eexists _, _. split; [reflexivity |].
  destruct (str_in "Offending" content), (str_in "HIT GOOD TRAP" content); simpl.
  - split; [split; [done | by intros (_ & [=] & _)] | done].
  - split; [split; [done | by intros ([=] & _)] | done].
  - split; [| by intros [[=] | [=]]].
    match goal with |- context [wait w ?c] => destruct (wait w c) as [code | |] end;
      simpl.
    + split.
      * intros ->. repeat split. by left.
      * by intros (_ & _ & [[= ->] | [[=] | [=]]]).
    + split; [| done]. intros _. repeat split. right. by left.
    + split; [| done]. intros _. repeat split. right. by right.
  - split; [split; [done | by intros ([=] & _)] | done].
Qed.

Lemma X7_witness :
  exists cmd ret,
    XiangShan.run_simv sample_world sample_xs
      (command_line None false "" false None) "w.bin"
    = ([Exec cmd (wait sample_world cmd)], Exit ret)
    /\ (ret = 0
        <-> str_in "HIT GOOD TRAP" "Core 0: HIT GOOD TRAP at pc = 0x80000000" = true
            /\ str_in "Offending" "Core 0: HIT GOOD TRAP at pc = 0x80000000" = false
            /\ (wait sample_world cmd = Exited 0
                \/ wait sample_world cmd = TimeoutExpired
                \/ wait sample_world cmd = KeyboardInterrupt))
    /\ (str_in "HIT GOOD TRAP" "Core 0: HIT GOOD TRAP at pc = 0x80000000" = false
        \/ str_in "Offending" "Core 0: HIT GOOD TRAP at pc = 0x80000000" = true
        -> ret = 1).
Proof.
  apply (X7_run_simv_verdict sample_world sample_xs
           (command_line None false "" false None) "w.bin"
           "./ready-to-run/riscv64-nemu-interpreter-so");
    reflexivity.
Defined.

(** X8: a failed build stops the run.  Without [--ci] and [--ci-vcs],
    when [--build] is given, the generation steps asked for return 0 and
    [build_emu] returns a code [ret] other than 0, [run] returns [ret]
    after the build: the simulator is not built, the workload is not
    run and the workspace is not cleaned. *)
Theorem X8_failed_build_stops_run (w : World) (self : XiangShan.t)
    (args0 : Namespace.t) (ret : Z) :
  Namespace.ci args0 = None ->
  Namespace.ci_vcs args0 = None ->
  Namespace.build args0 = true ->
  (XiangShan.build_emu w self).2 = Exit ret ->
  ret <> 0 ->
  (Namespace.generate args0 = true ->
   (XiangShan.generate_verilog w self).2 = Exit 0) ->
  (Namespace.vcs_gen args0 = true ->
   (XiangShan.generate_sim_verilog w self).2 = Exit 0) ->
  XiangShan.run w self args0
  = ((if Namespace.generate args0 then (XiangShan.generate_verilog w self).1 else [])
     ++ (if Namespace.vcs_gen args0
         then (XiangShan.generate_sim_verilog w self).1 else [])
     ++ (XiangShan.build_emu w self).1,
     Exit ret).
Proof.
  intros Hci Hvcs Hbuild Hret Hne Hgen Hsim. unfold XiangShan.run.
  rewrite Hci, Hvcs, Hbuild.
  destruct (XiangShan.build_emu w self) as [effects e] eqn:Hb.
  simpl in Hret. subst e.
  set (later := [(Namespace.vcs_build args0, XiangShan.build_simv w self);
                 (negb (String.eqb (Namespace.workload args0) ""),
                  XiangShan.run_emu w self (Namespace.workload args0));
                 (Namespace.clean args0, XiangShan.make_clean w self)]).
  set (before :=
         (if Namespace.generate args0 then [XiangShan.generate_verilog w self] else [])
         ++ (if Namespace.vcs_gen args0
             then [XiangShan.generate_sim_verilog w self] else [])).
  assert (map snd
            (filter (fun act : bool * (list effect * ending) => act.1 = true)
               ((Namespace.generate args0, XiangShan.generate_verilog w self)
                :: (Namespace.vcs_gen args0, XiangShan.generate_sim_verilog w self)
                :: (true, (effects, Exit ret)) :: later))
          = before ++ (effects, Exit ret)
              :: map snd (filter (fun act : bool * (list effect * ending) =>
                                    act.1 = true) later)) as ->.
  { unfold before.
    by destruct (Namespace.generate args0), (Namespace.vcs_gen args0). }
  rewrite run_actions_stop.
  - f_equal. unfold before. simpl.
    destruct (Namespace.generate args0), (Namespace.vcs_gen args0); simpl;
      by rewrite ?app_nil_r.
  - intros act Hact. unfold before in Hact.
    apply elem_of_app in Hact as [Hact | Hact].
    + destruct (Namespace.generate args0); [| by apply elem_of_nil in Hact].
      apply list_elem_of_singleton in Hact as ->. by apply Hgen.
    + destruct (Namespace.vcs_gen args0); [| by apply elem_of_nil in Hact].
      apply list_elem_of_singleton in Hact as ->. by apply Hsim.
  - intros [= ->]. done.
Qed.

Lemma X8_witness :
  XiangShan.run sample_world sample_xs (command_line None true "a.bin" false (Some 8))
  = ((if Namespace.generate (command_line None true "a.bin" false (Some 8))
      then (XiangShan.generate_verilog sample_world sample_xs).1 else [])
     ++ (if Namespace.vcs_gen (command_line None true "a.bin" false (Some 8))
         then (XiangShan.generate_sim_verilog sample_world sample_xs).1 else [])
     ++ (XiangShan.build_emu sample_world sample_xs).1,
     Exit 2).
Proof.
  apply (X8_failed_build_stops_run sample_world sample_xs
           (command_line None true "a.bin" false (Some 8)) 2);
    by vm_compute.
Defined.

(** X9: an unknown suite.  For a name that is neither a suite of
    [all_tests], nor a workload of [workloads], nor [random] (the empty
    name of a bare [--ci], say), [run_ci] and [run_ci_vcs] raise
    [AssertionError] and run no command. *)
Theorem X9_unknown_suite_raises (w : World) (self : XiangShan.t)
    (args0 : Namespace.t) (test : string) :
  XiangShan.all_tests !! test = None ->
  XiangShan.workloads !! test = None ->
  test <> "random" ->
  XiangShan.run_ci w self test = ([], Error AssertionError)
  /\ XiangShan.run_ci_vcs w self args0 test = ([], Error AssertionError).
Proof.
  intros Hsuite Hworkload Hrandom.
  assert (XiangShan.targets w self test = Fail AssertionError) as Htargets.
  { unfold XiangShan.targets, XiangShan.__get_ci_workloads.
    rewrite Hsuite, Hworkload. simpl.
    by destruct (String.eqb_spec test "random"). }
  unfold XiangShan.run_ci, XiangShan.run_ci_vcs. by rewrite Htargets.
Qed.

Lemma X9_witness :
  XiangShan.run_ci sample_world sample_xs "" = ([], Error AssertionError)
  /\ XiangShan.run_ci_vcs sample_world sample_xs
       (command_line (Some "") false "" false None) ""
     = ([], Error AssertionError).
Proof.
  apply (X9_unknown_suite_raises sample_world sample_xs
           (command_line (Some "") false "" false None) ""); by vm_compute.
Defined.

(** X10: the random checkpoint.  For the name [random], the suite is
    one file drawn from those found under the checkpoint directories,
    and its name ends with [.zstd] or [.gz]; when none is found,
    [random.choice] raises [IndexError].  The index drawn for a
    non-empty sequence is taken to lie below its length. *)
Theorem X10_random_checkpoint (w : World) (self : XiangShan.t) :
  (forall n, (0 < n)%nat -> (randbelow w n < n)%nat) ->
  (load_all_gcpt w XiangShan.all_cpt_dir = [] ->
   XiangShan.targets w self "random" = Fail IndexError)
  /\ (load_all_gcpt w XiangShan.all_cpt_dir <> [] ->
      exists gcpt gcpt_path,
        XiangShan.targets w self "random" = Done [gcpt]
        /\ gcpt_path ∈ XiangShan.all_cpt_dir
        /\ gcpt ∈ find_files_with_suffix w gcpt_path [".zstd"; ".gz"]
        /\ (endswith gcpt ".zstd" = true \/ endswith gcpt ".gz" = true)).
Proof.
  intros Hrand.
  assert (XiangShan.targets w self "random"
          = (x <~ choice w (load_all_gcpt w XiangShan.all_cpt_dir) ;; Done [x]))
    as -> by reflexivity.
  unfold choice. split.
  - by intros ->.
  - intros Hne.
    destruct (load_all_gcpt w XiangShan.all_cpt_dir) as [| x l] eqn:Hall; [done |].
    change (length (x :: l) =? 0)%nat with false. cbv iota.
    destruct (lookup_lt_is_Some_2 (x :: l) (randbelow w (length (x :: l))))
      as [gcpt Hgcpt]; [apply Hrand; simpl; lia |].
    rewrite Hgcpt. simpl.
    apply list_elem_of_lookup_2 in Hgcpt. rewrite <- Hall in Hgcpt.
    apply load_all_gcpt_elem in Hgcpt as (gcpt_path & Hdir & Hfound).
    exists gcpt, gcpt_path. repeat split; try done.
    apply find_files_elem in Hfound
      as (dirpath & dirnames & filenames & filename & suffix & _ & _ & Hsuffix
          & Hends & ->).
    apply elem_of_cons in Hsuffix as [-> | Hsuffix].
    + left. by apply join2_endswith.
    + apply list_elem_of_singleton in Hsuffix as ->. right. by apply join2_endswith.
Qed.

Lemma X10_witness :
  (load_all_gcpt sample_world XiangShan.all_cpt_dir = [] ->
   XiangShan.targets sample_world sample_xs "random" = Fail IndexError)
  /\ (load_all_gcpt sample_world XiangShan.all_cpt_dir <> [] ->
      exists gcpt gcpt_path,
        XiangShan.targets sample_world sample_xs "random" = Done [gcpt]
        /\ gcpt_path ∈ XiangShan.all_cpt_dir
        /\ gcpt ∈ find_files_with_suffix sample_world gcpt_path [".zstd"; ".gz"]
        /\ (endswith gcpt ".zstd" = true \/ endswith gcpt ".gz" = true)).
Proof.
  apply (X10_random_checkpoint sample_world sample_xs).
  intros n Hn. simpl. lia.
Defined.

(** X11: what [find_files_with_suffix] returns.  Every path returned is
    [os.path.join(dirpath, filename)] for a file that [os.walk] lists
    under the root, and the path itself ends with one of the
    suffixes. *)
Theorem X11_found_files_end_with_a_suffix (w : World) (root_dir : string)
    (suffixes : list string) (path : string) :
  path ∈ find_files_with_suffix w root_dir suffixes ->
  (exists dirpath dirnames filenames filename,
     (dirpath, dirnames, filenames) ∈ walk w root_dir
     /\ filename ∈ filenames
     /\ path = path_join dirpath [filename])
  /\ exists suffix, suffix ∈ suffixes /\ endswith path suffix = true.
Proof.
  intros (dirpath & dirnames & filenames & filename & suffix & Hwalk & Hfile
          & Hsuffix & Hends & ->)%find_files_elem.
  split.
  - by exists dirpath, dirnames, filenames, filename.
  - exists suffix. split; [done |]. by apply join2_endswith.
Qed.

Lemma X11_witness :
  (exists dirpath dirnames filenames filename,
     (dirpath, dirnames, filenames)
       ∈ walk sample_world
           "/nfs/home/share/checkpoints_profiles/spec06_rv64gcb_o2_20m/take_cpt"
     /\ filename ∈ filenames
     /\ "/nfs/home/share/checkpoints_profiles/spec06_rv64gcb_o2_20m/take_cpt/mcf/_200_0.3_.zstd"
        = path_join dirpath [filename])
  /\ exists suffix,
       suffix ∈ [".zstd"; ".gz"]
       /\ endswith
            "/nfs/home/share/checkpoints_profiles/spec06_rv64gcb_o2_20m/take_cpt/mcf/_200_0.3_.zstd"
            suffix = true.
Proof.
  apply (X11_found_files_end_with_a_suffix sample_world
           "/nfs/home/share/checkpoints_profiles/spec06_rv64gcb_o2_20m/take_cpt"
           [".zstd"; ".gz"]).
  vm_compute. apply list_elem_of_further, list_elem_of_here.
Defined.

(** X12: [find_files_with_suffix] misses no file.  A file that [os.walk]
    lists under the root and whose name ends with one of the suffixes
    has its joined path in the result. *)
Theorem X12_files_with_a_suffix_are_found (w : World) (root_dir : string)
    (suffixes : list string) (dirpath : string) (dirnames filenames : list string)
    (filename suffix : string) :
  (dirpath, dirnames, filenames) ∈ walk w root_dir ->
  filename ∈ filenames ->
  suffix ∈ suffixes ->
  endswith filename suffix = true ->
  path_join dirpath [filename] ∈ find_files_with_suffix w root_dir suffixes.
Proof.
  intros Hwalk Hfile Hsuffix Hends. apply find_files_elem.
  by exists dirpath, dirnames, filenames, filename, suffix.
Qed.

Lemma X12_witness :
  path_join "/nfs/home/share/checkpoints_profiles/spec06_rv64gcb_o2_20m/take_cpt/mcf"
    ["_100_0.5_.gz"]
  ∈ find_files_with_suffix sample_world
      "/nfs/home/share/checkpoints_profiles/spec06_rv64gcb_o2_20m/take_cpt"
      [".zstd"; ".gz"].
Proof.
  apply (X12_files_with_a_suffix_are_found sample_world
           "/nfs/home/share/checkpoints_profiles/spec06_rv64gcb_o2_20m/take_cpt"
           [".zstd"; ".gz"]
           "/nfs/home/share/checkpoints_profiles/spec06_rv64gcb_o2_20m/take_cpt/mcf"
           [] ["_100_0.5_.gz"; "notes.txt"; "_200_0.3_.zstd"] "_100_0.5_.gz" ".gz").
  - vm_compute. apply list_elem_of_further, list_elem_of_here.
  - apply list_elem_of_here.
  - apply list_elem_of_further, list_elem_of_here.
  - reflexivity.
Defined.

(** X13: a named workload.  For a name of the table [workloads],
    [run_ci] runs the emulator once, on the file of that name under
    [/nfs/home/share/ci-workloads], and returns its code; after a code
    other than 0 it copies the wave files when [wave_home] is not the
    default one. *)
Theorem X13_named_workload_runs_once (w : World) (self : XiangShan.t)
    (name file : string) (effects : list effect) (ret : Z) :
  XiangShan.workloads !! name = Some file ->
  XiangShan.run_emu w self
    ("/nfs/home/share/ci-workloads/" +:+ name +:+ "/" +:+ file)
  = (effects, Exit ret) ->
  XiangShan.run_ci w self name
  = (effects ++ (if ret =? 0 then [] else saved w self emu_copies), Exit ret).
Proof.
  intros Hfile Hrun.
  assert (XiangShan.targets w self name
          = Done ["/nfs/home/share/ci-workloads/" +:+ name +:+ "/" +:+ file])
    as Htargets.
  { apply elem_of_list_to_map_2 in Hfile.
    repeat (apply elem_of_cons in Hfile as [[= -> ->] | Hfile]; [by vm_compute |]).
    by apply elem_of_nil in Hfile. }
  unfold XiangShan.run_ci. rewrite Htargets.
  change [ "cp $NOOP_HOME/build/*.vcd $WAVE_HOME";
           "cp $NOOP_HOME/build/*.fst $WAVE_HOME";
           "cp $NOOP_HOME/build/emu $WAVE_HOME";
           "cp $NOOP_HOME/build/rtl/SimTop.v $WAVE_HOME";
           "cp $NOOP_HOME/build/*.db $WAVE_HOME" ] with emu_copies.
  rewrite ci_loop_cons, Hrun.
  destruct (ret =? 0) eqn:Hret; simpl.
  - apply Z.eqb_eq in Hret as ->. by rewrite app_nil_r.
  - done.
Qed.

Lemma X13_witness :
  XiangShan.run_ci sample_world sample_xs "mcf"
  = ([Exec (XiangShan.emu_cmd sample_xs
              ("/nfs/home/share/ci-workloads/" +:+ "mcf" +:+ "/" +:+ "_17520000000_.gz")
              "")
        (Exited 0)]
     ++ (if 0 =? 0 then [] else saved sample_world sample_xs emu_copies),
     Exit 0).
Proof.
  apply (X13_named_workload_runs_once sample_world sample_xs "mcf"
           "_17520000000_.gz"); by vm_compute.
Defined.

(** X14: the variable [EMU_TRACE] of the makefile.  For an object built
    by [__init__], [get_makefile_args] gives [EMU_TRACE=1] when [--trace]
    is given or when neither [--disable-fork] nor [--trace-fst] is, then
    [EMU_TRACE=fst] when [--trace-fst] is given, and no other
    [EMU_TRACE]. *)
Theorem X14_emu_trace_variables (w : World) (args0 : Namespace.t) (xs : XSArgs.t) :
  XSArgs.__init__ w args0 = Done xs ->
  filter (fun arg => arg.2 = "EMU_TRACE") (XSArgs.get_makefile_args w xs)
  = (if Namespace.trace args0
        || negb (Namespace.disable_fork args0) && negb (Namespace.trace_fst args0)
     then [(quote w "1", "EMU_TRACE")] else [])
    ++ (if Namespace.trace_fst args0 then [(quote w "fst", "EMU_TRACE")] else []).
Proof.
  intros (diff & _ & ->)%init_inv.
  unfold XSArgs.get_makefile_args. rewrite named_not_none. simpl.
  by destruct (Namespace.trace args0), (Namespace.disable_fork args0),
    (Namespace.trace_fst args0).
Qed.

Lemma X14_witness :
  filter (fun arg => arg.2 = "EMU_TRACE")
    (XSArgs.get_makefile_args sample_world (XiangShan.args sample_xs))
  = (if Namespace.trace (command_line None false "a.bin" false (Some 8))
        || negb (Namespace.disable_fork (command_line None false "a.bin" false (Some 8)))
           && negb (Namespace.trace_fst (command_line None false "a.bin" false (Some 8)))
     then [(quote sample_world "1", "EMU_TRACE")] else [])
    ++ (if Namespace.trace_fst (command_line None false "a.bin" false (Some 8))
        then [(quote sample_world "fst", "EMU_TRACE")] else []).
Proof.
  apply (X14_emu_trace_variables sample_world
           (command_line None false "a.bin" false (Some 8))).
  by vm_compute.
Defined.

(** X15: [WITH_CHISELDB] is always passed to make.  For an object built
    by [__init__], [get_makefile_args] holds exactly one
    [WITH_CHISELDB], with the value 0 under [--no-db] (the value 0 is
    not [None], so it is kept) and 1 otherwise. *)
Theorem X15_with_chiseldb_always_passed (w : World) (args0 : Namespace.t)
    (xs : XSArgs.t) :
  XSArgs.__init__ w args0 = Done xs ->
  filter (fun arg => arg.2 = "WITH_CHISELDB") (XSArgs.get_makefile_args w xs)
  = [(quote w (if Namespace.no_db args0 then "0" else "1"), "WITH_CHISELDB")].
Proof.
  intros (diff & _ & ->)%init_inv.
  unfold XSArgs.get_makefile_args. rewrite named_not_none. simpl.
  by destruct (Namespace.no_db args0).
Qed.

Lemma X15_witness :
  filter (fun arg => arg.2 = "WITH_CHISELDB")
    (XSArgs.get_makefile_args sample_world (XiangShan.args sample_xs))
  = [(quote sample_world
        (if Namespace.no_db (command_line None false "a.bin" false (Some 8))
         then "0" else "1"),
      "WITH_CHISELDB")].
Proof.
  apply (X15_with_chiseldb_always_passed sample_world
           (command_line None false "a.bin" false (Some 8))).
  by vm_compute.
Defined.

(** X16: the environment of a subprocess.  [__exec_cmd] hands over the
    environment of the script with six variables set from the object;
    every other variable, [RVTEST_HOME] among them, keeps the value it
    has in [os.environ], or stays unset. *)
Theorem X16_other_variables_inherited (w : World) (self : XiangShan.t)
    (var : string) :
  var ∉ ["NOOP_HOME"; "NEMU_HOME"; "WAVE_HOME"; "AM_HOME"; "DRAMSIM3_HOME";
         "MODULEPATH"] ->
  XiangShan.exec_env w self !! var = environ w !! var.
Proof.
  intros Hvar. unfold XiangShan.exec_env, XSArgs.get_env_variables. simpl.
  rewrite !lookup_insert_ne; [done | | | | | |];
    intros <-; apply Hvar;
    repeat (first [apply list_elem_of_here | apply list_elem_of_further]).
Qed.

Lemma X16_witness :
  XiangShan.exec_env sample_world sample_xs !! "RVTEST_HOME"
  = environ sample_world !! "RVTEST_HOME".
Proof.
  apply (X16_other_variables_inherited sample_world sample_xs "RVTEST_HOME").
  apply (bool_decide_unpack _). by vm_compute.
Defined.

(** X17: where [NEMU_HOME] comes from.  A subprocess of an object built
    by [XiangShan(args)] sees as [NEMU_HOME] the real path of [--nemu]
    when it is given, else of the [NEMU_HOME] of the script's environment
    when it is set, else of the default [<script dir>/../../NEMU]; and as
    [WAVE_HOME] the path of [--wave-dump] as given, else the default
    [<script dir>/../build]. *)
Theorem X17_home_precedence (w : World) (args0 : Namespace.t) (xs : XiangShan.t) :
  XiangShan.__init__ w args0 = Done xs ->
  XiangShan.exec_env w xs !! "NEMU_HOME"
  = Some (realpath w
            match Namespace.nemu args0 with
            | Some path => path
            | None =>
                match environ w !! "NEMU_HOME" with
                | Some path => path
                | None => path_join (script_dir w) [".."; "../NEMU"]
                end
            end)
  /\ XiangShan.exec_env w xs !! "WAVE_HOME"
     = Some match Namespace.wave_dump args0 with
            | Some path => path
            | None => path_join (script_dir w) [".."; "build"]
            end.
Proof.
  intros Hinit. unfold XiangShan.__init__ in Hinit.
  destruct (XSArgs.__init__ w args0) as [xsargs | e] eqn:Hxs; [| done].
  injection Hinit as <-.
  apply init_inv in Hxs as (diff & _ & ->).
  unfold XiangShan.exec_env, XSArgs.get_env_variables. simpl. split.
  - rewrite !lookup_insert_ne by done. rewrite lookup_insert_eq.
    destruct (Namespace.nemu args0); [done |].
    by destruct (environ w !! "NEMU_HOME").
  - rewrite !lookup_insert_ne by done. rewrite lookup_insert_eq.
    by destruct (Namespace.wave_dump args0).
Qed.

Lemma X17_witness :
  XiangShan.exec_env sample_world
    (made sample_world (command_line None false "a.bin" false (Some 8)))
    !! "NEMU_HOME"
  = Some (realpath sample_world
            match Namespace.nemu (command_line None false "a.bin" false (Some 8)) with
            | Some path => path
            | None =>
                match environ sample_world !! "NEMU_HOME" with
                | Some path => path
                | None => path_join (script_dir sample_world) [".."; "../NEMU"]
                end
            end)
  /\ XiangShan.exec_env sample_world
       (made sample_world (command_line None false "a.bin" false (Some 8)))
       !! "WAVE_HOME"
     = Some match Namespace.wave_dump (command_line None false "a.bin" false (Some 8)) with
            | Some path => path
            | None => path_join (script_dir sample_world) [".."; "build"]
            end.
Proof.
  apply (X17_home_precedence sample_world
           (command_line None false "a.bin" false (Some 8))).
  by vm_compute.
Defined.

(** X18: when the constructor fails.  [XSArgs(args)] raises exactly when
    [--spike] is given and [args.diff] is [None] (a [--diff] without a
    value), and the exception is then [TypeError]; the script then runs
    no command. *)
Theorem X18_init_fails_on_spike_without_diff (w : World) (args0 : Namespace.t) :
  ((exists e, XSArgs.__init__ w args0 = Fail e)
   <-> Namespace.spike args0 = true /\ Namespace.diff args0 = None)
  /\ (forall e, XSArgs.__init__ w args0 = Fail e ->
        e = Exn TypeError
        /\ XiangShan.main w args0 = ([], Error (Exn TypeError))).
Proof.
  split; [split |].
  - intros [e (Hspike & Hdiff & _)%init_fails]. done.
  - intros [Hspike Hdiff]. exists (Exn TypeError).
    unfold XSArgs.__init__. rewrite !extract_path_spec. simpl.
    by rewrite Hspike, Hdiff.
  - intros e Hfail. pose proof Hfail as (_ & _ & ->)%init_fails.
    split; [done |]. unfold XiangShan.main, XiangShan.__init__. by rewrite Hfail.
Qed.

Lemma X18_witness :
  ((exists e,
      XSArgs.__init__ sample_world
        (command_line_with None None false "a.bin" false None) = Fail e)
   <-> Namespace.spike (command_line_with None None false "a.bin" false None) = true
       /\ Namespace.diff (command_line_with None None false "a.bin" false None) = None)
  /\ (forall e,
        XSArgs.__init__ sample_world
          (command_line_with None None false "a.bin" false None) = Fail e ->
        e = Exn TypeError
        /\ XiangShan.main sample_world
             (command_line_with None None false "a.bin" false None)
           = ([], Error (Exn TypeError))).
Proof.
  apply (X18_init_fails_on_spike_without_diff sample_world
           (command_line_with None None false "a.bin" false None)).
Defined.

(** X19: the suites read from a directory.  Every workload of the
    suites [cputest] and [riscv-tests] has a name that ends with
    [.bin]. *)
Theorem X19_listed_suites_are_bin_files (w : World) (self : XiangShan.t)
    (test : string) (todo : list string) (target : string) :
  test = "cputest" \/ test = "riscv-tests" ->
  XiangShan.targets w self test = Done todo ->
  target ∈ todo ->
  endswith target ".bin" = true.
Proof.
  intros [-> | ->] Htargets Htarget.
  - change (XiangShan.targets w self "cputest") with (XiangShan.__get_ci_cputest w)
      in Htargets.
    unfold XiangShan.__get_ci_cputest in Htargets.
    destruct (listdir w _) as [names |]; [| done].
    injection Htargets as <-.
    apply list_elem_of_fmap in Htarget as (x & -> & Hx).
    apply list_elem_of_filter in Hx as [Hbin _]. by apply join2_endswith.
  - change (XiangShan.targets w self "riscv-tests")
      with (XiangShan.__get_ci_rvtest w self) in Htargets.
    unfold XiangShan.__get_ci_rvtest in Htargets.
    destruct (listdir w _) as [names |]; [| done].
    injection Htargets as <-.
    apply list_elem_of_fmap in Htarget as (x & -> & Hx).
    apply list_elem_of_filter in Hx as [_ Hx].
    apply list_elem_of_filter in Hx as [Hbin _]. by apply join2_endswith.
Qed.

Lemma X19_witness :
  endswith
    "/nfs/home/share/ci-workloads/nexus-am-workloads/tests/cputest/bit-riscv64-xs.bin"
    ".bin" = true.
Proof.
  apply (X19_listed_suites_are_bin_files sample_world sample_xs "cputest"
           ["/nfs/home/share/ci-workloads/nexus-am-workloads/tests/cputest/add-riscv64-xs.bin";
            "/nfs/home/share/ci-workloads/nexus-am-workloads/tests/cputest/bit-riscv64-xs.bin"]).
  - by left.
  - by vm_compute.
  - apply list_elem_of_further, list_elem_of_here.
Defined.

(** X20: the reference model handed to the emulator.  For an object
    built by [__init__] from a [--diff] path without [nemu-interpreter],
    [get_emu_args] holds that path unchanged, with [--spike] or without
    it: [--spike] rewrites only the text [nemu-interpreter]. *)
Theorem X20_diff_without_interpreter_kept (w : World) (args0 : Namespace.t)
    (xs : XSArgs.t) (d : string) :
  XSArgs.__init__ w args0 = Done xs ->
  Namespace.diff args0 = Some d ->
  str_in "nemu-interpreter" d = false ->
  (VStr d, "diff") ∈ XSArgs.get_emu_args xs.
Proof.
  intros (diff & Hdiff & ->)%init_inv Hd Habsent.
  assert (diff = Some d) as ->.
  { destruct (Namespace.spike args0); [| congruence].
    destruct Hdiff as (d' & Hd' & ->). rewrite Hd in Hd'. injection Hd' as <-.
    destruct (str_in "nemu" d); [| done]. by rewrite replace_absent. }
  unfold XSArgs.get_emu_args, XSArgs.not_none. simpl.
  destruct (Namespace.max_instr args0); simpl.
  - apply list_elem_of_further, list_elem_of_here.
  - apply list_elem_of_here.
Qed.

Lemma X20_witness :
  (VStr "./build/nemu-so", "diff")
  ∈ XSArgs.get_emu_args
      (XiangShan.args
         (made sample_world
            (command_line_with (Some "./build/nemu-so") None false "a.bin"
               false None))).
Proof.
  apply (X20_diff_without_interpreter_kept sample_world
           (command_line_with (Some "./build/nemu-so") None false "a.bin"
              false None));
    by vm_compute.
Defined.
